(** * BuzzFence: the control core of the WiFence collar sketch

    A shallow embedding of [BuzzFence/buzzFence/buzzFence.ino] and the
    properties of its control loop: the RSSI-to-intensity mapping, the
    adaptive scanner, the three-buzz boundary pattern and the failsafe mode.

    The sketch is single threaded.  Its globals become the record [State];
    every [void] function of the sketch becomes a [Proc], a function from the
    globals to the new globals together with the list of effects it performed
    on the board (PWM and LED writes, delays, serial lines), oldest first.
    The two things the sketch reads from the outside world, the millisecond
    clock and the result of a WiFi scan, are arguments of the procedures that
    read them. *)

From Stdlib Require Import ZArith List Bool String DecimalString Lia ZifyBool.
From Stdlib Require Import Permutation.
Import ListNotations.
Open Scope Z_scope.

(** ** The board: machine integers and the Arduino core helpers *)

Module Arduino.

(** [unsigned long] and [int] are both 32 bits wide on the ESP32. *)
Definition ULONG_SPAN : Z := 2 ^ 32.

(** Conversion to [unsigned long] (also what an [int] operand undergoes
    when it meets an [unsigned long] one). *)
Definition ulong (z : Z) : Z := z mod ULONG_SPAN.

(** [a - b] on [unsigned long] operands. *)
Definition usub (a b : Z) : Z := ulong (a - b).

(** Wrap-around of a signed 32-bit [int] / [long]. *)
Definition wrap_int (z : Z) : Z := (z + 2 ^ 31) mod ULONG_SPAN - 2 ^ 31.

(** What [millis()] returns when [t] milliseconds have passed since boot. *)
Definition millis (t : Z) : Z := ulong t.

(** The [constrain(amt, low, high)] macro. *)
Definition constrain (amt low high : Z) : Z :=
  if amt <? low then low else if amt >? high then high else amt.

(** [long map(long x, long in_min, long in_max, long out_min, long out_max)]
    of the Arduino core: integer linear interpolation, the division
    truncating toward zero as in C. *)
Definition map (x in_min in_max out_min out_max : Z) : Z :=
  let run := wrap_int (in_max - in_min) in
  if run =? 0 then -1
  else
    let rise := wrap_int (out_max - out_min) in
    let delta := wrap_int (x - in_min) in
    wrap_int (wrap_int (delta * rise) ÷ run + out_min).

(** [String(int)]: the decimal rendering used in the serial lines. *)
Definition String_ (z : Z) : string := NilZero.string_of_int (Z.to_int z).

Inductive Pin : Set := Gpio (n : Z) | LED_BUILTIN.

(** The effects a procedure can have on the board. *)
Inductive Event : Type :=
| SerialBegin (baud : Z)
| PinModeOutput (p : Pin)
| WiFiModeSta
| WiFiDisconnect
| AnalogWrite (p : Pin) (value : Z)
| DigitalWrite (p : Pin) (high : bool)
| Delay (ms : Z)
| Println (line : string).

End Arduino.
Import Arduino.

(** ** Configuration constants *)

Definition MOTOR_PIN : Pin := Gpio 5.
Definition TARGET_SSID : string := "thatOne".

Definition RSSI_THRESHOLD : Z := -75.
Definition BUZZ_DURATION : Z := 300.
Definition BUZZ_PAUSE : Z := 100.
Definition PATTERN_PAUSE : Z := 2000.
Definition NORMAL_SCAN_INTERVAL : Z := 1000.
Definition FAST_SCAN_INTERVAL : Z := 200.
Definition FAILSAFE_TIMEOUT : Z := 30000.
Definition MAX_SCAN_ATTEMPTS : Z := 3.

(** ** The globals of the sketch *)

Record State : Type := mkState {
  lastScanTime : Z;
  lastNetworkSeen : Z;
  buzzStartTime : Z;
  currentScanInterval : Z;
  failedScans : Z;
  inBoundaryWarning : bool;
  inFailsafe : bool;
  buzzCount : Z;
  buzzing : bool;
  buzzPause : bool;
  currentMotorSpeed : Z
}.

(** The values the globals are initialised with. *)
Definition boot : State :=
  {| lastScanTime := 0; lastNetworkSeen := 0; buzzStartTime := 0;
     currentScanInterval := NORMAL_SCAN_INTERVAL; failedScans := 0;
     inBoundaryWarning := false; inFailsafe := false;
     buzzCount := 0; buzzing := false; buzzPause := false;
     currentMotorSpeed := 0 |}.

Definition set_lastScanTime (v : Z) (s : State) : State :=
  mkState v (lastNetworkSeen s) (buzzStartTime s) (currentScanInterval s)
    (failedScans s) (inBoundaryWarning s) (inFailsafe s) (buzzCount s)
    (buzzing s) (buzzPause s) (currentMotorSpeed s).
Definition set_lastNetworkSeen (v : Z) (s : State) : State :=
  mkState (lastScanTime s) v (buzzStartTime s) (currentScanInterval s)
    (failedScans s) (inBoundaryWarning s) (inFailsafe s) (buzzCount s)
    (buzzing s) (buzzPause s) (currentMotorSpeed s).
Definition set_buzzStartTime (v : Z) (s : State) : State :=
  mkState (lastScanTime s) (lastNetworkSeen s) v (currentScanInterval s)
    (failedScans s) (inBoundaryWarning s) (inFailsafe s) (buzzCount s)
    (buzzing s) (buzzPause s) (currentMotorSpeed s).
Definition set_currentScanInterval (v : Z) (s : State) : State :=
  mkState (lastScanTime s) (lastNetworkSeen s) (buzzStartTime s) v
    (failedScans s) (inBoundaryWarning s) (inFailsafe s) (buzzCount s)
    (buzzing s) (buzzPause s) (currentMotorSpeed s).
Definition set_failedScans (v : Z) (s : State) : State :=
  mkState (lastScanTime s) (lastNetworkSeen s) (buzzStartTime s)
    (currentScanInterval s) v (inBoundaryWarning s) (inFailsafe s)
    (buzzCount s) (buzzing s) (buzzPause s) (currentMotorSpeed s).
Definition set_inBoundaryWarning (v : bool) (s : State) : State :=
  mkState (lastScanTime s) (lastNetworkSeen s) (buzzStartTime s)
    (currentScanInterval s) (failedScans s) v (inFailsafe s) (buzzCount s)
    (buzzing s) (buzzPause s) (currentMotorSpeed s).
Definition set_inFailsafe (v : bool) (s : State) : State :=
  mkState (lastScanTime s) (lastNetworkSeen s) (buzzStartTime s)
    (currentScanInterval s) (failedScans s) (inBoundaryWarning s) v
    (buzzCount s) (buzzing s) (buzzPause s) (currentMotorSpeed s).
Definition set_buzzCount (v : Z) (s : State) : State :=
  mkState (lastScanTime s) (lastNetworkSeen s) (buzzStartTime s)
    (currentScanInterval s) (failedScans s) (inBoundaryWarning s)
    (inFailsafe s) v (buzzing s) (buzzPause s) (currentMotorSpeed s).
Definition set_buzzing (v : bool) (s : State) : State :=
  mkState (lastScanTime s) (lastNetworkSeen s) (buzzStartTime s)
    (currentScanInterval s) (failedScans s) (inBoundaryWarning s)
    (inFailsafe s) (buzzCount s) v (buzzPause s) (currentMotorSpeed s).
Definition set_buzzPause (v : bool) (s : State) : State :=
  mkState (lastScanTime s) (lastNetworkSeen s) (buzzStartTime s)
    (currentScanInterval s) (failedScans s) (inBoundaryWarning s)
    (inFailsafe s) (buzzCount s) (buzzing s) v (currentMotorSpeed s).
Definition set_currentMotorSpeed (v : Z) (s : State) : State :=
  mkState (lastScanTime s) (lastNetworkSeen s) (buzzStartTime s)
    (currentScanInterval s) (failedScans s) (inBoundaryWarning s)
    (inFailsafe s) (buzzCount s) (buzzing s) (buzzPause s) v.

(** ** Procedures: state passing with an effect log *)

Definition Proc : Type := State -> State * list Event.

Definition skip : Proc := fun s => (s, []).

Definition emit (e : Event) : Proc := fun s => (s, [e]).

Definition assign (f : State -> State) : Proc := fun s => (f s, []).

Definition andThen (p q : Proc) : Proc :=
  fun s =>
    let (s1, o1) := p s in
    let (s2, o2) := q s1 in
    (s2, o1 ++ o2).

(** [when c p]: an [if] without [else] whose condition reads the globals. *)
Definition when (c : State -> bool) (p : Proc) : Proc :=
  fun s => if c s then p s else (s, []).

Definition ifElse (c : State -> bool) (p q : Proc) : Proc :=
  fun s => if c s then p s else q s.

Declare Scope proc_scope.
Delimit Scope proc_scope with proc.
Bind Scope proc_scope with Proc.
Notation "p ;; q" := (andThen p q)
  (at level 61, right associativity) : proc_scope.
Open Scope proc_scope.

Definition println (line : string) : Proc := emit (Println line).
Definition analogWrite (p : Pin) (v : Z) : Proc := emit (AnalogWrite p v).
Definition digitalWrite (p : Pin) (high : bool) : Proc :=
  emit (DigitalWrite p high).
Definition delay (ms : Z) : Proc := emit (Delay ms).

Definition HIGH : bool := true.
Definition LOW : bool := false.

(** ** The sketch *)

(** [setup()]; [now] is the value [millis()] returns at line 54. *)
Definition setup (now : Z) : Proc :=
  emit (SerialBegin 115200) ;;
  emit (PinModeOutput MOTOR_PIN) ;;
  emit (PinModeOutput LED_BUILTIN) ;;
  analogWrite MOTOR_PIN 0 ;;
  digitalWrite LED_BUILTIN LOW ;;
  emit WiFiModeSta ;;
  emit WiFiDisconnect ;;
  println "Dog Collar Digital Fence Started" ;;
  println ("Target Network: " ++ TARGET_SSID) ;;
  println ("RSSI Threshold: " ++ String_ RSSI_THRESHOLD ++ " dBm") ;;
  assign (set_lastNetworkSeen now) ;;
  delay 1000.

Definition mapRSSIToMotorSpeed (rssi : Z) : Z :=
  if rssi >=? -40 then 0
  else if rssi <=? RSSI_THRESHOLD then 150
  else map rssi (-40) RSSI_THRESHOLD 0 150.

Definition setMotorSpeed (speed : Z) : Proc :=
  let speed := constrain speed 0 255 in
  when (fun s => negb (speed =? currentMotorSpeed s))
    (analogWrite MOTOR_PIN speed ;;
     digitalWrite LED_BUILTIN HIGH ;;
     assign (set_currentMotorSpeed speed) ;;
     println ("Motor speed set to: " ++ String_ speed)).

Definition enterBoundaryWarning : Proc :=
  println "Entering boundary warning mode" ;;
  assign (set_inBoundaryWarning true) ;;
  assign (set_buzzCount 0) ;;
  assign (set_buzzing false) ;;
  assign (set_buzzPause false) ;;
  setMotorSpeed 0.

Definition exitBoundaryWarning : Proc :=
  println "Exiting boundary warning mode" ;;
  assign (set_inBoundaryWarning false) ;;
  assign (set_buzzing false) ;;
  assign (set_buzzPause false) ;;
  setMotorSpeed 0.

(** [handleBoundaryWarning()]; [currentTime] is what [millis()] returns at
    line 187.  The three [if]s run one after the other, each on the globals
    the previous one left. *)
Definition handleBoundaryWarning (currentTime : Z) : Proc :=
  when (fun s => negb (buzzing s) && negb (buzzPause s))
    (assign (set_buzzing true) ;;
     assign (set_buzzStartTime currentTime) ;;
     setMotorSpeed 200 ;;
     digitalWrite LED_BUILTIN HIGH ;;
     (fun s => println ("Buzz " ++ String_ (wrap_int (buzzCount s + 1))
                          ++ " started") s)) ;;
  when (fun s =>
          buzzing s
          && (usub currentTime (buzzStartTime s) >=? ulong BUZZ_DURATION))
    (assign (set_buzzing false) ;;
     assign (fun s => set_buzzCount (wrap_int (buzzCount s + 1)) s) ;;
     setMotorSpeed 0 ;;
     digitalWrite LED_BUILTIN LOW ;;
     ifElse (fun s => buzzCount s <? 3)
       (assign (set_buzzPause true) ;;
        assign (set_buzzStartTime currentTime))
       (assign (set_buzzCount 0) ;;
        assign (set_buzzPause true) ;;
        assign (set_buzzStartTime currentTime) ;;
        println "Pattern complete, starting long pause")) ;;
  when buzzPause
    (fun s =>
       let pauseDuration :=
         if buzzCount s =? 0 then PATTERN_PAUSE else BUZZ_PAUSE in
       when (fun s =>
               usub currentTime (buzzStartTime s) >=? ulong pauseDuration)
         (assign (set_buzzPause false)) s).

(** The body of the [for] loop of [enterFailsafeMode], run [n] times. *)
Fixpoint warningPulses (n : nat) : Proc :=
  match n with
  | O => skip
  | S n' =>
      setMotorSpeed 255 ;;
      digitalWrite LED_BUILTIN HIGH ;;
      delay 500 ;;
      setMotorSpeed 0 ;;
      digitalWrite LED_BUILTIN LOW ;;
      delay 300 ;;
      warningPulses n'
  end.

Definition enterFailsafeMode : Proc :=
  when (fun s => negb (inFailsafe s))
    (println "ENTERING FAILSAFE MODE - WiFi completely lost!" ;;
     assign (set_inFailsafe true) ;;
     exitBoundaryWarning ;;
     warningPulses 2 ;;
     setMotorSpeed 255 ;;
     digitalWrite LED_BUILTIN HIGH).

Definition exitFailsafeMode : Proc :=
  when inFailsafe
    (println "Exiting failsafe mode - WiFi restored" ;;
     assign (set_inFailsafe false) ;;
     setMotorSpeed 0 ;;
     digitalWrite LED_BUILTIN LOW).

(** The search of the scan results (lines 85-99): the locals [targetFound]
    and [targetRSSI] after the [for] loop, which stops at the first network
    named [TARGET_SSID].  [networks] lists the [(SSID(i), RSSI(i))] of the
    scan in index order; a failed scan ([networkCount <= 0]) is the empty
    list. *)
Fixpoint searchTarget (networks : list (string * Z)) : bool * Z :=
  match networks with
  | [] => (false, -100)
  | (ssid, rssi) :: rest =>
      if String.eqb ssid TARGET_SSID then (true, rssi) else searchTarget rest
  end.

Definition targetFound (networks : list (string * Z)) : bool :=
  fst (searchTarget networks).
Definition targetRSSI (networks : list (string * Z)) : Z :=
  snd (searchTarget networks).

(** The failsafe condition of line 106, [now] being [millis()] there. *)
Definition failsafeCondition (now : Z) (s : State) : bool :=
  (usub now (lastNetworkSeen s) >? ulong FAILSAFE_TIMEOUT)
  || (failedScans s >=? MAX_SCAN_ATTEMPTS).

(** Lines 101-115: the target is not among the scan results. *)
Definition respondToMiss (now : Z) : Proc :=
  assign (fun s => set_failedScans (wrap_int (failedScans s + 1)) s) ;;
  (fun s => println ("Target network not found. Failed attempts: "
                       ++ String_ (failedScans s)) s) ;;
  ifElse (failsafeCondition now)
    enterFailsafeMode
    (setMotorSpeed 255 ;;
     assign (set_currentScanInterval FAST_SCAN_INTERVAL)).

(** Lines 117-141: the target was found with strength [rssi]. *)
Definition respondToSignal (rssi : Z) : Proc :=
  when inFailsafe exitFailsafeMode ;;
  if rssi <=? RSSI_THRESHOLD then
    when (fun s => negb (inBoundaryWarning s)) enterBoundaryWarning ;;
    assign (set_currentScanInterval FAST_SCAN_INTERVAL)
  else
    when inBoundaryWarning exitBoundaryWarning ;;
    setMotorSpeed (mapRSSIToMotorSpeed rssi) ;;
    assign (set_currentScanInterval NORMAL_SCAN_INTERVAL).

(** [scanAndRespond()]; [networks] is what [WiFi.scanNetworks()] sees and
    [now] the value of the one [millis()] call the function makes (line 93
    when the target is found, line 106 when it is not). *)
Definition scanAndRespond (networks : list (string * Z)) (now : Z) : Proc :=
  println "Scanning for networks..." ;;
  if targetFound networks then
    assign (set_lastNetworkSeen now) ;;
    assign (set_failedScans 0) ;;
    println ("Found " ++ TARGET_SSID ++ " - RSSI: "
               ++ String_ (targetRSSI networks) ++ " dBm") ;;
    respondToSignal (targetRSSI networks)
  else
    respondToMiss now.

(** What one iteration of [loop()] reads from the outside world. *)
Record LoopInput : Type := mkLoopInput {
  loopTime : Z;                      (* millis() at line 59 *)
  networks : list (string * Z);      (* the scan, if one is made *)
  scanTime : Z;                      (* millis() inside scanAndRespond *)
  tickTime : Z                       (* millis() at line 187 *)
}.

Definition scanDue (i : LoopInput) (s : State) : bool :=
  usub (loopTime i) (lastScanTime s) >=? ulong (currentScanInterval s).

(** Lines 61-65. *)
Definition scanPhase (i : LoopInput) : Proc :=
  when (scanDue i)
    (scanAndRespond (networks i) (scanTime i) ;;
     assign (set_lastScanTime (loopTime i))).

(** Lines 67-70. *)
Definition patternPhase (i : LoopInput) : Proc :=
  when (fun s => inBoundaryWarning s && negb (inFailsafe s))
    (handleBoundaryWarning (tickTime i)).

Definition loop (i : LoopInput) : Proc :=
  scanPhase i ;; patternPhase i ;; delay 10.

(** The globals between two iterations of [loop()], for every behaviour of the
    clock and of the scans. *)
Inductive Reachable : State -> Prop :=
| Reachable_setup (now : Z) : Reachable (fst (setup now boot))
| Reachable_loop (i : LoopInput) (s : State) :
    Reachable s -> Reachable (fst (loop i s)).

(** Running a list of iterations. *)
Fixpoint runLoop (inputs : list LoopInput) : Proc :=
  match inputs with
  | [] => skip
  | i :: rest => loop i ;; runLoop rest
  end.

(** Ticking the boundary pattern at a list of clock readings. *)
Fixpoint runTicks (times : list Z) : Proc :=
  match times with
  | [] => skip
  | t :: rest => handleBoundaryWarning t ;; runTicks rest
  end.

(** ** Observations *)

(** The intensities written to the motor, oldest first. *)
Fixpoint motorWrites (evs : list Event) : list Z :=
  match evs with
  | [] => []
  | AnalogWrite _ v :: rest => v :: motorWrites rest
  | _ :: rest => motorWrites rest
  end.

(** The motor writes and the delays between them. *)
Fixpoint actuation (evs : list Event) : list Event :=
  match evs with
  | [] => []
  | AnalogWrite p v :: rest => AnalogWrite p v :: actuation rest
  | Delay ms :: rest => Delay ms :: actuation rest
  | _ :: rest => actuation rest
  end.

Definition isLine (line : string) (e : Event) : bool :=
  match e with
  | Println l => String.eqb l line
  | _ => false
  end.

Definition countLine (line : string) (evs : list Event) : nat :=
  List.length (List.filter (isLine line) evs).

Definition PATTERN_COMPLETE : string := "Pattern complete, starting long pause".
Definition FAILSAFE_ENTERED : string :=
  "ENTERING FAILSAFE MODE - WiFi completely lost!".

(** The sub-states of the boundary pattern, read off the three globals. *)
Definition idle (s : State) : bool := negb (buzzing s) && negb (buzzPause s).
Definition pulsing (s : State) : bool := buzzing s && negb (buzzPause s).
Definition shortPause (s : State) : bool :=
  negb (buzzing s) && buzzPause s && negb (buzzCount s =? 0).
Definition longPause (s : State) : bool :=
  negb (buzzing s) && buzzPause s && (buzzCount s =? 0).

(** The effects of [setMotorSpeed v] on globals [s]: none when the speed
    is the current one. *)
Definition motorEvents (v : Z) (s : State) : list Event :=
  if constrain v 0 255 =? currentMotorSpeed s then []
  else [AnalogWrite MOTOR_PIN (constrain v 0 255);
        DigitalWrite LED_BUILTIN HIGH;
        Println ("Motor speed set to: " ++ String_ (constrain v 0 255))].

(** The serial line of a starting buzz. *)
Definition buzzStartedLine (s : State) : string :=
  "Buzz " ++ String_ (wrap_int (buzzCount s + 1)) ++ " started".

(** The length of the pause the machine is in. *)
Definition pauseDuration (s : State) : Z :=
  if buzzCount s =? 0 then PATTERN_PAUSE else BUZZ_PAUSE.

(** What holds of the globals between any two iterations of [loop()]. *)
Record Inv (s : State) : Prop := mkInv {
  inv_count : 0 <= buzzCount s < 3;
  inv_phase : buzzing s = true -> buzzPause s = false;
  inv_speed : 0 <= currentMotorSpeed s <= 255;
  inv_failsafe :
    inFailsafe s = true ->
    inBoundaryWarning s = false /\ buzzing s = false /\ buzzPause s = false
    /\ currentMotorSpeed s = 255
}.

(** [p] keeps the property [P] of the globals. *)
Definition preserves (P : State -> Prop) (p : Proc) : Prop :=
  forall s, P s -> P (fst (p s)).

(** One warning pulse of the failsafe entry, as it appears on the board when
    the motor is off before it: full speed for 500 ms, off for 300 ms. *)
Definition warningPulse : list Event :=
  [AnalogWrite MOTOR_PIN 255; DigitalWrite LED_BUILTIN HIGH;
   Println "Motor speed set to: 255"; DigitalWrite LED_BUILTIN HIGH;
   Delay 500;
   AnalogWrite MOTOR_PIN 0; DigitalWrite LED_BUILTIN HIGH;
   Println "Motor speed set to: 0"; DigitalWrite LED_BUILTIN LOW;
   Delay 300].

(** The motor left at full speed. *)
Definition continuousMaximum : list Event :=
  [AnalogWrite MOTOR_PIN 255; DigitalWrite LED_BUILTIN HIGH;
   Println "Motor speed set to: 255"; DigitalWrite LED_BUILTIN HIGH].

(** The globals once failsafe has been entered from [s]. *)
Definition failsafeEntered (s : State) : State :=
  set_currentMotorSpeed 255
    (set_buzzPause false
       (set_buzzing false
          (set_inBoundaryWarning false (set_inFailsafe true s)))).

(** ** Scenarios *)

(** An iteration of [loop()] that starts at time [t] (ms since boot), with
    the three clock readings equal, and that sees the target at strength
    [rssi] next to a neighbour's network. *)
Definition sighting (t rssi : Z) : LoopInput :=
  mkLoopInput (millis t) [("neighbour"%string, -60); (TARGET_SSID, rssi)]
    (millis t) (millis t).

(** The same with the target out of range. *)
Definition blackout (t : Z) : LoopInput :=
  mkLoopInput (millis t) [("neighbour"%string, -60)] (millis t) (millis t).

(** An iteration whose scan (if any) sees the target and whose pattern tick
    reads the clock at [tick]. *)
Definition sightingTick (t rssi tick : Z) : LoopInput :=
  mkLoopInput (millis t) [(TARGET_SSID, rssi)] (millis t) (millis tick).

(** The same with the target out of range. *)
Definition blackoutTick (t tick : Z) : LoopInput :=
  mkLoopInput (millis t) [] (millis t) (millis tick).

(** The globals after [setup()] at time 0. *)
Definition started : State := fst (setup (millis 0) boot).

(** Three scans in a row miss the target: the collar is in failsafe. *)
Definition lost : State :=
  fst (runLoop [blackout 1000; blackout 1200; blackout 1400] started).

(** The collar stays at the boundary (strength -80) from time 1000 on; the
    iterations listed are those up to the start of the third buzz. *)
Definition thirdBuzz : State :=
  fst (runLoop
         (List.map (fun t => sighting t (-80))
            [1000; 1300; 1400; 1410; 1710; 1810; 1820])
         started).

(** At the boundary since time 1000, in the middle of the first buzz. *)
Definition firstBuzz : State :=
  fst (runLoop [sighting 1000 (-80)] started).

(** At the boundary since time 1000; the first buzz and the short pause
    after it are over and the second buzz has not started. *)
Definition betweenBuzzes : State :=
  fst (runLoop
         [sighting 1000 (-80); sightingTick 1200 (-80) 1300;
          sightingTick 1400 (-80) 1400]
         started).

(** ** Tick schedules of the boundary pattern *)

(** The nominal length of one cycle of the pattern: three buzzes, the two
    short pauses between them and the long pause. *)
Definition CYCLE : Z :=
  3 * (BUZZ_DURATION + BUZZ_PAUSE) - BUZZ_PAUSE + PATTERN_PAUSE.

(** The ticks of one buzz that starts at time [b] and of the short pause
    after it: a tick at [b], one at the end of the buzz and one at the end of
    the pause, and any ticks [during] the buzz and [after] it. *)
Definition buzzTicks (b : Z) (during after : list Z) : list Z :=
  [b] ++ during ++ [b + BUZZ_DURATION] ++ after
    ++ [b + BUZZ_DURATION + BUZZ_PAUSE].

(** The ticks of the third buzz and of the long pause, short of the tick that
    ends the long pause. *)
Definition lastBuzzTicks (b : Z) (during after : list Z) : list Z :=
  [b] ++ during ++ [b + BUZZ_DURATION] ++ after.

(** A schedule of ticks for one cycle, in ms since boot: a tick at every
    deadline, further ticks before the deadlines, and the time each of the
    second and third buzz waits for the tick that starts it. *)
Record Schedule : Type := mkSchedule {
  start : Z;
  restart1 : Z;
  restart2 : Z;
  during1 : list Z;
  after1 : list Z;
  during2 : list Z;
  after2 : list Z;
  during3 : list Z;
  after3 : list Z
}.

Definition buzz2 (c : Schedule) : Z :=
  start c + BUZZ_DURATION + BUZZ_PAUSE + restart1 c.
Definition buzz3 (c : Schedule) : Z :=
  buzz2 c + BUZZ_DURATION + BUZZ_PAUSE + restart2 c.
Definition finish (c : Schedule) : Z :=
  buzz3 c + BUZZ_DURATION + PATTERN_PAUSE.

Definition ticksBeforeFinish (c : Schedule) : list Z :=
  buzzTicks (start c) (during1 c) (after1 c)
    ++ buzzTicks (buzz2 c) (during2 c) (after2 c)
    ++ lastBuzzTicks (buzz3 c) (during3 c) (after3 c).

Definition within (from to : Z) (ticks : list Z) : Prop :=
  Forall (fun t => from <= t < to) ticks.

Record wellTimed (c : Schedule) : Prop := mkWellTimed {
  wt_restart1 : 0 <= restart1 c;
  wt_restart2 : 0 <= restart2 c;
  wt_during1 : within (start c) (start c + BUZZ_DURATION) (during1 c);
  wt_after1 :
    within (start c + BUZZ_DURATION)
      (start c + BUZZ_DURATION + BUZZ_PAUSE) (after1 c);
  wt_during2 : within (buzz2 c) (buzz2 c + BUZZ_DURATION) (during2 c);
  wt_after2 :
    within (buzz2 c + BUZZ_DURATION)
      (buzz2 c + BUZZ_DURATION + BUZZ_PAUSE) (after2 c);
  wt_during3 : within (buzz3 c) (buzz3 c + BUZZ_DURATION) (during3 c);
  wt_after3 : within (buzz3 c + BUZZ_DURATION) (finish c) (after3 c)
}.

(** A tick at every millisecond from [t0] to [t0 + n]. *)
Definition everyMillisecond (t0 : Z) (n : nat) : list Z :=
  List.map (fun k => millis (t0 + Z.of_nat k)) (seq 0 (S n)).

(** An iteration of [loop()] every [period] ms from [t0] to
    [t0 + n * period], the collar at the boundary throughout. *)
Definition atBoundaryEvery (period t0 : Z) (n : nat) : list LoopInput :=
  List.map (fun k => sighting (t0 + period * Z.of_nat k) (-80)) (seq 0 (S n)).

(** The machine has gone through exactly one cycle and is idle again. *)
Definition cycleDone (r : State * list Event) : Prop :=
  idle (fst r) = true
  /\ buzzCount (fst r) = 0
  /\ motorWrites (snd r) = [200; 0; 200; 0; 200; 0]
  /\ countLine PATTERN_COMPLETE (snd r) = 1%nat.

(** Ticks at clock readings that increase strictly, later than [last] and no
    later than [upto]. *)
Fixpoint ticksAfter (last upto : Z) (ticks : list Z) : Prop :=
  match ticks with
  | [] => True
  | t :: rest => last < t <= upto /\ ticksAfter t upto rest
  end.

(** The earliest a buzz can start after the start of the one before it, when
    no two ticks read the same millisecond: the buzz, the short pause, and
    one more millisecond for the tick that restarts. *)
Definition RESTART : Z := BUZZ_DURATION + BUZZ_PAUSE + 1.

(** How far the pattern can have got at a tick at time [last], when it was
    entered and not ticked before [t0] and no two ticks read the same
    millisecond; [lines] counts the pattern-complete lines so far. *)
Inductive Progress (t0 last : Z) (s : State) (lines : nat) : Prop :=
| Progress_entered :
    buzzing s = false -> buzzPause s = false -> buzzCount s = 0 ->
    t0 - 1 <= last -> lines = 0%nat -> Progress t0 last s lines
| Progress_buzz (b : Z) :
    buzzing s = true -> buzzPause s = false -> 0 <= buzzCount s < 3 ->
    buzzStartTime s = millis b ->
    t0 + RESTART * buzzCount s <= b <= last ->
    lines = 0%nat -> Progress t0 last s lines
| Progress_shortPause (e : Z) :
    buzzing s = false -> buzzPause s = true -> 1 <= buzzCount s <= 2 ->
    buzzStartTime s = millis e ->
    t0 + RESTART * (buzzCount s - 1) + BUZZ_DURATION <= e <= last ->
    lines = 0%nat -> Progress t0 last s lines
| Progress_between :
    buzzing s = false -> buzzPause s = false -> 1 <= buzzCount s <= 2 ->
    t0 + RESTART * (buzzCount s - 1) + BUZZ_DURATION + BUZZ_PAUSE <= last ->
    lines = 0%nat -> Progress t0 last s lines
| Progress_longPause (e : Z) :
    buzzing s = false -> buzzPause s = true -> buzzCount s = 0 ->
    buzzStartTime s = millis e ->
    t0 + RESTART * 2 + BUZZ_DURATION <= e <= last ->
    lines = 1%nat -> Progress t0 last s lines.

(** A schedule with further ticks in which each restart waits 10 ms. *)
Definition sampleSchedule : Schedule :=
  mkSchedule 1000 10 10 [1010; 1100] [1350] [] [] [2000] [2500; 4000].

(** The pattern entered and ticked at every millisecond of the nominal cycle
    time. *)
Definition tickedEveryMillisecond : State * list Event :=
  runTicks (everyMillisecond 1000 (Z.to_nat CYCLE))
    (fst (enterBoundaryWarning started)).

(** The loop run every 10 ms for the nominal cycle time, the collar coming to
    the boundary at the first iteration. *)
Definition loopedEveryTenMilliseconds : State * list Event :=
  runLoop (atBoundaryEvery 10 1000 (Z.to_nat (CYCLE / 10))) started.

(** ** Further observations *)

(** The names of the networks of a scan. *)
Definition ssids (networks : list (string * Z)) : list string :=
  List.map fst networks.

(** No write repeats the value the pin already has: [pin] is the value on the
    motor pin before the writes. *)
Fixpoint noRepeat (pin : Z) (writes : list Z) : Prop :=
  match writes with
  | [] => True
  | w :: rest => w <> pin /\ noRepeat w rest
  end.

(** The value on the motor pin after the writes. *)
Definition pinAfter (pin : Z) (writes : list Z) : Z := List.last writes pin.

(** A procedure that drives the motor pin as [setMotorSpeed] means to: run
    with the pin at [currentMotorSpeed], it writes only values from 0 to 255,
    never the value the pin already has, and leaves the pin at
    [currentMotorSpeed] again. *)
Definition faithful (p : Proc) : Prop :=
  forall s : State,
    noRepeat (currentMotorSpeed s) (motorWrites (snd (p s)))
    /\ pinAfter (currentMotorSpeed s) (motorWrites (snd (p s)))
       = currentMotorSpeed (fst (p s))
    /\ Forall (fun w => 0 <= w <= 255) (motorWrites (snd (p s))).

(** The delays of a run, in ms, oldest first: the time the sketch spends
    blocked in [delay()]. *)
Fixpoint delays (evs : list Event) : list Z :=
  match evs with
  | [] => []
  | Delay ms :: rest => ms :: delays rest
  | _ :: rest => delays rest
  end.

(** A procedure that never calls [delay()]. *)
Definition quick (p : Proc) : Prop :=
  forall s : State, delays (snd (p s)) = [].

(** How the scan interval and the flags of the boundary pattern stand to the
    boundary-warning flag between iterations of the loop. *)
Record Shape (s : State) : Prop := mkShape {
  shape_interval :
    currentScanInterval s = NORMAL_SCAN_INTERVAL
    \/ currentScanInterval s = FAST_SCAN_INTERVAL;
  shape_fast :
    inBoundaryWarning s = true -> currentScanInterval s = FAST_SCAN_INTERVAL;
  shape_idle :
    inBoundaryWarning s = false -> buzzing s = false /\ buzzPause s = false
}.

(** The level of the built-in LED after a run that started with it at
    [led]. *)
Fixpoint ledAfter (led : bool) (evs : list Event) : bool :=
  match evs with
  | [] => led
  | DigitalWrite LED_BUILTIN level :: rest => ledAfter level rest
  | _ :: rest => ledAfter led rest
  end.

(** The ticks of several cycles of the pattern, one schedule after the
    other. *)
Definition cyclesTicks (cs : list Schedule) : list Z :=
  flat_map (fun c => ticksBeforeFinish c ++ [finish c]) cs.

(** The globals as [enterBoundaryWarning] leaves the pattern: entered, idle,
    no buzz counted, motor off. *)
Definition freshlyEntered (s : State) : Prop :=
  inBoundaryWarning s = true /\ buzzing s = false /\ buzzPause s = false
  /\ buzzCount s = 0 /\ currentMotorSpeed s = 0.

(** * Proofs *)

(** ** Machine arithmetic *)

#[global] Arguments String_ : simpl never.
#[global] Arguments usub : simpl never.
#[global] Arguments ulong : simpl never.
#[global] Arguments wrap_int : simpl never.
#[global] Arguments String.append : simpl never.
#[global] Arguments countLine : simpl never.
#[global] Arguments Z.eqb : simpl nomatch.

Lemma ULONG_SPAN_eq : ULONG_SPAN = 4294967296.
Proof. reflexivity. Qed.

Lemma wrap_int_small (z : Z) :
  - 2147483648 <= z < 2147483648 -> wrap_int z = z.
Proof.
  intros H. unfold wrap_int. rewrite ULONG_SPAN_eq.
  change (2 ^ 31) with 2147483648.
  rewrite Z.mod_small by lia. lia.
Qed.

Lemma ulong_small (z : Z) : 0 <= z < 4294967296 -> ulong z = z.
Proof.
  intros H. unfold ulong. rewrite ULONG_SPAN_eq. apply Z.mod_small. exact H.
Qed.

Lemma constrain_bounds (v low high : Z) :
  low <= high -> low <= constrain v low high <= high.
Proof.
  intros H. unfold constrain.
  destruct (v <? low) eqn:E1; [lia |].
  destruct (v >? high) eqn:E2; lia.
Qed.

Lemma usub_same (t : Z) : usub t t = 0.
Proof. unfold usub. rewrite Z.sub_diag. reflexivity. Qed.

(** The difference of two clock readings is the time that passed between
    them, whatever the wrap-around of the counter, as long as that time fits
    the counter. *)
Lemma usub_millis (t d : Z) :
  0 <= d < 4294967296 -> usub (millis (t + d)) (millis t) = d.
Proof.
  intros H. unfold usub, millis, ulong. rewrite ULONG_SPAN_eq.
  rewrite <- Zminus_mod.
  replace (t + d - t) with d by lia.
  apply Z.mod_small. exact H.
Qed.

(** ** Sequencing *)

Lemma andThen_eq (p q : Proc) (s : State) :
  (p ;; q) s = (fst (q (fst (p s))), snd (p s) ++ snd (q (fst (p s)))).
Proof.
  unfold andThen. destruct (p s) as [s1 o1]. cbn.
  destruct (q s1) as [s2 o2]. reflexivity.
Qed.

Lemma fst_andThen (p q : Proc) (s : State) :
  fst ((p ;; q) s) = fst (q (fst (p s))).
Proof. rewrite andThen_eq. reflexivity. Qed.

Lemma snd_andThen (p q : Proc) (s : State) :
  snd ((p ;; q) s) = snd (p s) ++ snd (q (fst (p s))).
Proof. rewrite andThen_eq. reflexivity. Qed.

Lemma when_true (c : State -> bool) (p : Proc) (s : State) :
  c s = true -> when c p s = p s.
Proof. intros H. unfold when. rewrite H. reflexivity. Qed.

Lemma when_false (c : State -> bool) (p : Proc) (s : State) :
  c s = false -> when c p s = (s, []).
Proof. intros H. unfold when. rewrite H. reflexivity. Qed.

Lemma preserves_andThen (P : State -> Prop) (p q : Proc) :
  preserves P p -> preserves P q -> preserves P (p ;; q).
Proof.
  intros Hp Hq s Hs. rewrite fst_andThen. apply Hq, Hp, Hs.
Qed.

Lemma preserves_when (P : State -> Prop) (c : State -> bool) (p : Proc) :
  (forall s, P s -> c s = true -> P (fst (p s))) -> preserves P (when c p).
Proof.
  intros Hp s Hs. unfold when. destruct (c s) eqn:E; [auto | exact Hs].
Qed.

Lemma preserves_ifElse (P : State -> Prop) (c : State -> bool) (p q : Proc) :
  (forall s, P s -> c s = true -> P (fst (p s))) ->
  (forall s, P s -> c s = false -> P (fst (q s))) ->
  preserves P (ifElse c p q).
Proof.
  intros Hp Hq s Hs. unfold ifElse. destruct (c s) eqn:E; auto.
Qed.

(** ** What each procedure does to the globals *)

Lemma setMotorSpeed_state (v : Z) (s : State) :
  fst (setMotorSpeed v s) = set_currentMotorSpeed (constrain v 0 255) s.
Proof.
  unfold setMotorSpeed, when.
  destruct (Z.eqb_spec (constrain v 0 255) (currentMotorSpeed s)) as [E | E];
    cbn.
  - rewrite E. destruct s; reflexivity.
  - reflexivity.
Qed.

Lemma setMotorSpeed_events (v : Z) (s : State) :
  snd (setMotorSpeed v s) =
  if constrain v 0 255 =? currentMotorSpeed s then []
  else [AnalogWrite MOTOR_PIN (constrain v 0 255);
        DigitalWrite LED_BUILTIN HIGH;
        Println ("Motor speed set to: " ++ String_ (constrain v 0 255))].
Proof.
  unfold setMotorSpeed, when.
  destruct (constrain v 0 255 =? currentMotorSpeed s); reflexivity.
Qed.

Lemma setMotorSpeed_eq (v : Z) (s : State) :
  setMotorSpeed v s =
  (set_currentMotorSpeed (constrain v 0 255) s, motorEvents v s).
Proof.
  rewrite (surjective_pairing (setMotorSpeed v s)).
  rewrite setMotorSpeed_state, setMotorSpeed_events. reflexivity.
Qed.

#[global] Arguments motorEvents : simpl never.

Lemma exitBoundaryWarning_state (s : State) :
  fst (exitBoundaryWarning s) =
  set_currentMotorSpeed 0
    (set_buzzPause false (set_buzzing false (set_inBoundaryWarning false s))).
Proof.
  unfold exitBoundaryWarning. rewrite !fst_andThen, setMotorSpeed_state.
  reflexivity.
Qed.

Lemma enterBoundaryWarning_state (s : State) :
  fst (enterBoundaryWarning s) =
  set_currentMotorSpeed 0
    (set_buzzPause false
       (set_buzzing false (set_buzzCount 0 (set_inBoundaryWarning true s)))).
Proof.
  unfold enterBoundaryWarning. rewrite !fst_andThen, setMotorSpeed_state.
  reflexivity.
Qed.

(** Unfolding a procedure applied to explicit globals, and splitting on the
    conditions it tests. *)
Ltac unfold_procs :=
  unfold loop, scanPhase, patternPhase, scanAndRespond, respondToMiss,
    respondToSignal, enterFailsafeMode, exitFailsafeMode, warningPulses,
    handleBoundaryWarning, enterBoundaryWarning, exitBoundaryWarning,
    failsafeCondition, scanDue,
    println, analogWrite, digitalWrite, delay,
    when, ifElse, andThen, assign, emit, skip,
    set_lastScanTime, set_lastNetworkSeen, set_buzzStartTime,
    set_currentScanInterval, set_failedScans, set_inBoundaryWarning,
    set_inFailsafe, set_buzzCount, set_buzzing, set_buzzPause,
    set_currentMotorSpeed in *.

Ltac split_cond :=
  match goal with
  | |- context [if ?c then _ else _] =>
      lazymatch c with
      | context [if _ then _ else _] => fail
      | _ => destruct c eqn:?
      end
  end.

Ltac run_proc :=
  unfold_procs; cbn in *;
  repeat (first [rewrite setMotorSpeed_eq | split_cond]; cbn in * ).

Ltac known_consts :=
  change (ulong BUZZ_DURATION) with 300 in *;
  change (ulong BUZZ_PAUSE) with 100 in *;
  change (ulong PATTERN_PAUSE) with 2000 in *;
  change (ulong FAILSAFE_TIMEOUT) with 30000 in *;
  change MAX_SCAN_ATTEMPTS with 3 in *;
  rewrite ?usub_same in *.

(** ** The boundary pattern, one tick at a time *)

Section PatternSteps.

Variable t : Z.
Variable s : State.

(** From [Idle] a tick starts a buzz, and nothing else. *)
Lemma tick_idle :
  buzzing s = false -> buzzPause s = false ->
  handleBoundaryWarning t s =
    (set_currentMotorSpeed 200 (set_buzzStartTime t (set_buzzing true s)),
     motorEvents 200 s
       ++ [DigitalWrite LED_BUILTIN HIGH; Println (buzzStartedLine s)]).
Proof.
  destruct s as [lst lns bst csi fs ibw ifs bc bz bp cms]. cbn.
  intros -> ->. run_proc; known_consts; try lia.
  rewrite app_nil_r. reflexivity.
Qed.

(** A tick before the end of the buzz changes nothing. *)
Lemma tick_pulsing_early :
  buzzing s = true -> buzzPause s = false ->
  usub t (buzzStartTime s) < BUZZ_DURATION ->
  handleBoundaryWarning t s = (s, []).
Proof.
  destruct s as [lst lns bst csi fs ibw ifs bc bz bp cms]. cbn.
  intros -> -> H. unfold BUZZ_DURATION in H.
  run_proc; known_consts; try lia. reflexivity.
Qed.

(** The first tick at or after the end of the first or second buzz stops
    the motor and starts the short pause. *)
Lemma tick_pulsing_short :
  buzzing s = true -> buzzPause s = false ->
  BUZZ_DURATION <= usub t (buzzStartTime s) ->
  0 <= buzzCount s < 2 ->
  handleBoundaryWarning t s =
    (set_buzzStartTime t
       (set_buzzPause true
          (set_currentMotorSpeed 0
             (set_buzzCount (buzzCount s + 1) (set_buzzing false s)))),
     motorEvents 0 s ++ [DigitalWrite LED_BUILTIN LOW]).
Proof.
  destruct s as [lst lns bst csi fs ibw ifs bc bz bp cms]. cbn.
  intros -> -> H Hc. unfold BUZZ_DURATION in H.
  run_proc; known_consts; rewrite ?wrap_int_small in * by lia; try lia.
  rewrite !app_nil_r. reflexivity.
Qed.

(** The first tick at or after the end of the third buzz stops the motor,
    resets the count and starts the long pause. *)
Lemma tick_pulsing_long :
  buzzing s = true -> buzzPause s = false ->
  BUZZ_DURATION <= usub t (buzzStartTime s) ->
  buzzCount s = 2 ->
  handleBoundaryWarning t s =
    (set_buzzStartTime t
       (set_buzzPause true
          (set_currentMotorSpeed 0
             (set_buzzCount 0 (set_buzzing false s)))),
     motorEvents 0 s
       ++ [DigitalWrite LED_BUILTIN LOW; Println PATTERN_COMPLETE]).
Proof.
  destruct s as [lst lns bst csi fs ibw ifs bc bz bp cms]. cbn.
  intros -> -> H ->. unfold BUZZ_DURATION in H.
  run_proc; known_consts; rewrite ?wrap_int_small in * by lia; try lia.
  rewrite !app_nil_r. reflexivity.
Qed.

Lemma tick_pause_early :
  buzzing s = false -> buzzPause s = true ->
  usub t (buzzStartTime s) < pauseDuration s ->
  handleBoundaryWarning t s = (s, []).
Proof.
  unfold pauseDuration.
  destruct s as [lst lns bst csi fs ibw ifs bc bz bp cms]. cbn.
  intros -> -> H. unfold PATTERN_PAUSE, BUZZ_PAUSE in H.
  run_proc; known_consts; try lia; reflexivity.
Qed.

(** The first tick at or after the end of a pause returns to [Idle]; the
    next buzz is left to the next tick. *)
Lemma tick_pause_over :
  buzzing s = false -> buzzPause s = true ->
  pauseDuration s <= usub t (buzzStartTime s) ->
  handleBoundaryWarning t s = (set_buzzPause false s, []).
Proof.
  unfold pauseDuration.
  destruct s as [lst lns bst csi fs ibw ifs bc bz bp cms]. cbn.
  intros -> -> H. unfold PATTERN_PAUSE, BUZZ_PAUSE in H.
  run_proc; known_consts; try lia; reflexivity.
Qed.

End PatternSteps.

(** ** The invariant of the control loop *)

Ltac open_inv :=
  repeat match goal with
         | H : Inv _ |- _ => destruct H as [? ? ? ?]
         end;
  cbn in *.

Ltac close_inv :=
  constructor; cbn in *; intros;
  rewrite ?wrap_int_small in * by lia;
  repeat match goal with
         | H : ?a = ?a -> _ |- _ => specialize (H eq_refl)
         | H : _ /\ _ |- _ => destruct H
         end;
  repeat split;
  first [lia | congruence | discriminate
        | apply constrain_bounds; lia | idtac].

Lemma Inv_boot : Inv boot.
Proof. constructor; cbn; intros; first [lia | congruence | discriminate]. Qed.

Lemma Inv_setup (now : Z) : Inv (fst (setup now boot)).
Proof. constructor; cbn; intros; first [lia | congruence | discriminate]. Qed.

Lemma Inv_handleBoundaryWarning (t : Z) (s : State) :
  Inv s -> inFailsafe s = false -> Inv (fst (handleBoundaryWarning t s)).
Proof.
  destruct s as [lst lns bst csi fs ibw ifs bc bz bp cms]. cbn.
  intros HI ->. open_inv.
  destruct bz, bp; run_proc; close_inv.
Qed.

Lemma Inv_scanAndRespond (nets : list (string * Z)) (now : Z) (s : State) :
  Inv s -> Inv (fst (scanAndRespond nets now s)).
Proof.
  destruct s as [lst lns bst csi fs ibw ifs bc bz bp cms].
  intros HI. open_inv.
  unfold scanAndRespond.
  destruct (targetFound nets); [unfold respondToSignal;
    destruct (targetRSSI nets <=? RSSI_THRESHOLD) |];
    destruct ifs, ibw; run_proc; close_inv.
Qed.

(** ** The signal mapper *)

(** Between the two end points the mapper is the C expression
    [(rssi + 40) * 150 / -35], a quotient of two negative numbers. *)
Lemma mapRSSIToMotorSpeed_interior (rssi : Z) :
  RSSI_THRESHOLD < rssi < -40 ->
  mapRSSIToMotorSpeed rssi = ((- 40 - rssi) * 150) / 35.
Proof.
  unfold RSSI_THRESHOLD. intros H.
  unfold mapRSSIToMotorSpeed, RSSI_THRESHOLD, map.
  destruct (rssi >=? -40) eqn:E1; [lia |].
  destruct (rssi <=? -75) eqn:E2; [lia |].
  change (wrap_int (-75 - -40)) with (- (35)).
  change (wrap_int (150 - 0)) with 150.
  change (- (35) =? 0) with false. cbv iota.
  rewrite (wrap_int_small (rssi - -40)) by lia.
  rewrite (wrap_int_small ((rssi - -40) * 150)) by lia.
  rewrite Z.quot_opp_r by lia.
  rewrite <- Z.quot_opp_l by lia.
  rewrite Z.quot_div_nonneg by lia.
  replace (- ((rssi - -40) * 150)) with ((-40 - rssi) * 150) by lia.
  rewrite Z.add_0_r.
  apply wrap_int_small.
  assert (0 <= (-40 - rssi) * 150 / 35) by (apply Z.div_pos; lia).
  assert ((-40 - rssi) * 150 / 35 <= 5250 / 35)
    by (apply Z.div_le_mono; lia).
  change (5250 / 35) with 150 in *. lia.
Qed.

(** C5: the signal mapper meets its end points: every strength of at least
    -40 is mapped to intensity 0, and every strength of at most -75 (the RSSI
    threshold) is mapped to intensity 150. *)
Theorem mapRSSIToMotorSpeed_endpoints (rssi : Z) :
  (rssi >= -40 -> mapRSSIToMotorSpeed rssi = 0)
  /\ (rssi <= -75 -> mapRSSIToMotorSpeed rssi = 150).
Proof.
  unfold mapRSSIToMotorSpeed, RSSI_THRESHOLD. split; intros H.
  - destruct (rssi >=? -40) eqn:E; [reflexivity | lia].
  - destruct (rssi >=? -40) eqn:E1; [lia |].
    destruct (rssi <=? -75) eqn:E2; [reflexivity | lia].
Qed.

Lemma mapRSSIToMotorSpeed_endpoints_witness :
  mapRSSIToMotorSpeed (-30) = 0 /\ mapRSSIToMotorSpeed (-80) = 150.
Proof.
  split.
  - apply (proj1 (mapRSSIToMotorSpeed_endpoints (-30))). lia.
  - apply (proj2 (mapRSSIToMotorSpeed_endpoints (-80))). lia.
Defined.

(** C6: strictly between -75 and -40 the mapped intensity does not increase
    when the strength increases, and it stays within 0 and 150. *)
Theorem mapRSSIToMotorSpeed_monotone_bounded :
  (forall s1 s2 : Z,
      -75 < s1 -> s1 < s2 -> s2 < -40 ->
      mapRSSIToMotorSpeed s2 <= mapRSSIToMotorSpeed s1)
  /\ (forall s : Z,
        -75 < s < -40 -> 0 <= mapRSSIToMotorSpeed s <= 150).
Proof.
  split.
  - intros s1 s2 H1 H12 H2.
    rewrite !mapRSSIToMotorSpeed_interior by (unfold RSSI_THRESHOLD; lia).
    apply Z.div_le_mono; lia.
  - intros s H.
    rewrite mapRSSIToMotorSpeed_interior by (unfold RSSI_THRESHOLD; lia).
    split.
    + apply Z.div_pos; lia.
    + change 150 with (5250 / 35) at 2. apply Z.div_le_mono; lia.
Qed.

Lemma mapRSSIToMotorSpeed_monotone_bounded_witness :
  mapRSSIToMotorSpeed (-50) <= mapRSSIToMotorSpeed (-60)
  /\ 0 <= mapRSSIToMotorSpeed (-60) <= 150.
Proof.
  split.
  - apply (proj1 mapRSSIToMotorSpeed_monotone_bounded (-60) (-50)); lia.
  - apply (proj2 mapRSSIToMotorSpeed_monotone_bounded (-60)); lia.
Defined.

(** ** Leaving the boundary pattern *)

(** C7: whatever the sub-state of the boundary pattern (mid-buzz, short pause
    or long pause), [exitBoundaryWarning] leaves the commanded intensity at 0
    and the machine idle and left; the only write it makes to the motor is
    that 0, and the buzz that was cut short is not counted as completed. *)
Theorem exitBoundaryWarning_abrupt (s : State) :
  let s' := fst (exitBoundaryWarning s) in
  currentMotorSpeed s' = 0
  /\ idle s' = true
  /\ inBoundaryWarning s' = false
  /\ buzzCount s' = buzzCount s
  /\ motorWrites (snd (exitBoundaryWarning s)) =
       (if currentMotorSpeed s =? 0 then [] else [0])
  /\ countLine PATTERN_COMPLETE (snd (exitBoundaryWarning s)) = 0%nat.
Proof.
  destruct s as [lst lns bst csi fs ibw ifs bc bz bp cms].
  unfold exitBoundaryWarning. unfold_procs.
  rewrite setMotorSpeed_eq. unfold motorEvents.
  destruct cms; repeat split; reflexivity.
Qed.

(** ** The invariant holds between iterations *)

Lemma Inv_scanPhase (i : LoopInput) : preserves Inv (scanPhase i).
Proof.
  apply preserves_when. intros s HI _. rewrite fst_andThen.
  apply (Inv_scanAndRespond (networks i) (scanTime i)) in HI.
  destruct HI as [? ? ? ?].
  destruct (fst (scanAndRespond (networks i) (scanTime i) s)).
  constructor; assumption.
Qed.

Lemma Inv_patternPhase (i : LoopInput) : preserves Inv (patternPhase i).
Proof.
  apply preserves_when. intros s HI Hc.
  apply Inv_handleBoundaryWarning; [exact HI |].
  destruct (inFailsafe s); [| reflexivity].
  rewrite andb_false_r in Hc. discriminate.
Qed.

Lemma Inv_loop (i : LoopInput) : preserves Inv (loop i).
Proof.
  unfold loop. apply preserves_andThen; [apply Inv_scanPhase |].
  apply preserves_andThen; [apply Inv_patternPhase |].
  intros s HI. exact HI.
Qed.

Lemma Reachable_Inv (s : State) : Reachable s -> Inv s.
Proof.
  induction 1 as [now | i s _ IH].
  - apply Inv_setup.
  - apply Inv_loop, IH.
Qed.

Lemma Reachable_runLoop (inputs : list LoopInput) (s : State) :
  Reachable s -> Reachable (fst (runLoop inputs s)).
Proof.
  revert s. induction inputs as [| i rest IH]; intros s H.
  - exact H.
  - cbn [runLoop]. rewrite fst_andThen. apply IH, Reachable_loop, H.
Qed.

Lemma Reachable_started : Reachable started.
Proof. apply Reachable_setup. Qed.

Lemma Reachable_lost : Reachable lost.
Proof. apply Reachable_runLoop, Reachable_started. Qed.

(** ** Failsafe and the boundary pattern exclude each other *)

(** C1: in every state the control loop can reach, an active failsafe flag
    means that the boundary pattern is left and idle; and whenever the
    failsafe flag is active when [loop()] comes to its pattern guard (after
    the scan of that iteration, if any), the pattern handler is not run: that
    part of the iteration changes nothing and has no effect on the board. *)
Theorem failsafe_excludes_boundary_pattern (s : State) :
  Reachable s ->
  (inFailsafe s = true -> inBoundaryWarning s = false /\ idle s = true)
  /\ (forall i : LoopInput,
        let s1 := fst (scanPhase i s) in
        inFailsafe s1 = true ->
        inBoundaryWarning s1 = false /\ idle s1 = true
        /\ patternPhase i s1 = (s1, [])
        /\ loop i s = (s1, snd (scanPhase i s) ++ [Delay 10])).
Proof.
  intros HR. split.
  - intros HF. destruct (Reachable_Inv s HR) as [_ _ _ H].
    destruct (H HF) as (-> & Hb & Hp & _). unfold idle. rewrite Hb, Hp.
    split; reflexivity.
  - intros i s1 HF.
    assert (HI : Inv s1) by (apply Inv_scanPhase, Reachable_Inv, HR).
    destruct HI as [_ _ _ H]. destruct (H HF) as (Hw & Hb & Hp & _).
    assert (Hskip : patternPhase i s1 = (s1, [])).
    { unfold patternPhase. apply when_false. rewrite HF, Hw. reflexivity. }
    repeat split; try assumption.
    + unfold idle. rewrite Hb, Hp. reflexivity.
    + unfold loop. rewrite andThen_eq. fold s1. rewrite andThen_eq, Hskip.
      reflexivity.
Qed.

Lemma failsafe_excludes_boundary_pattern_witness :
  inFailsafe lost = true
  /\ inBoundaryWarning lost = false /\ idle lost = true
  /\ loop (blackout 1600) lost =
       (fst (scanPhase (blackout 1600) lost),
        snd (scanPhase (blackout 1600) lost) ++ [Delay 10]).
Proof.
  pose proof (failsafe_excludes_boundary_pattern lost Reachable_lost)
    as [H1 H2].
  split; [reflexivity |].
  destruct (H1 eq_refl) as [Ha Hb].
  destruct (H2 (blackout 1600) eq_refl) as (_ & _ & _ & Hc).
  repeat split; assumption.
Defined.

(** ** Reading the effect log *)

Lemma motorWrites_app (a b : list Event) :
  motorWrites (a ++ b) = motorWrites a ++ motorWrites b.
Proof.
  induction a as [| e a IH]; [reflexivity |].
  destruct e; cbn; rewrite ?IH; reflexivity.
Qed.

Lemma motorWrites_motorEvents (v : Z) (s : State) :
  motorWrites (motorEvents v s) =
  if constrain v 0 255 =? currentMotorSpeed s then []
  else [constrain v 0 255].
Proof.
  unfold motorEvents.
  destruct (constrain v 0 255 =? currentMotorSpeed s); reflexivity.
Qed.

Lemma countLine_app (line : string) (a b : list Event) :
  countLine line (a ++ b) = (countLine line a + countLine line b)%nat.
Proof. unfold countLine. rewrite filter_app, length_app. reflexivity. Qed.

Lemma countLine_cons (line : string) (e : Event) (rest : list Event) :
  countLine line (e :: rest) =
  ((if isLine line e then 1 else 0) + countLine line rest)%nat.
Proof. unfold countLine. cbn. destruct (isLine line e); reflexivity. Qed.

Lemma countLine_motorEvents (v : Z) (s : State) :
  countLine PATTERN_COMPLETE (motorEvents v s) = 0%nat
  /\ countLine FAILSAFE_ENTERED (motorEvents v s) = 0%nat.
Proof.
  unfold motorEvents.
  destruct (constrain v 0 255 =? currentMotorSpeed s); split; reflexivity.
Qed.

(** ** The buzz count and the end of the pattern *)

(** C9: in every state the control loop can reach the buzz count is 0, 1 or
    2; and a tick of the boundary pattern from such a state prints "Pattern
    complete" exactly when it takes the machine into the long pause: once
    when the machine was not in the long pause before the tick and is after
    it, and not at all otherwise. *)
Theorem buzzCount_range_and_pattern_complete (s : State) :
  Reachable s ->
  0 <= buzzCount s < 3
  /\ (forall t : Z,
        countLine PATTERN_COMPLETE (snd (handleBoundaryWarning t s)) =
        if negb (longPause s) && longPause (fst (handleBoundaryWarning t s))
        then 1%nat else 0%nat).
Proof.
  intros HR. destruct (Reachable_Inv s HR) as [Hc Hph _ _].
  split; [exact Hc |]. intros t.
  destruct (buzzing s) eqn:Hb.
  - (* a buzz is on *)
    specialize (Hph eq_refl).
    destruct (Z.lt_ge_cases (usub t (buzzStartTime s)) BUZZ_DURATION)
      as [early | over].
    + rewrite tick_pulsing_early by assumption. cbn [fst snd].
      unfold longPause. rewrite Hb. reflexivity.
    + destruct (Z.eq_dec (buzzCount s) 2) as [last | notlast].
      * rewrite tick_pulsing_long by assumption. cbn [fst snd].
        rewrite countLine_app, (proj1 (countLine_motorEvents 0 s)).
        unfold longPause. rewrite Hb. reflexivity.
      * rewrite tick_pulsing_short by (assumption || lia). cbn [fst snd].
        rewrite countLine_app, (proj1 (countLine_motorEvents 0 s)).
        unfold longPause. rewrite Hb. cbn.
        replace (buzzCount s + 1 =? 0) with false by lia. reflexivity.
  - destruct (buzzPause s) eqn:Hp.
    + (* a pause is on *)
      destruct (Z.lt_ge_cases (usub t (buzzStartTime s)) (pauseDuration s))
        as [early | over].
      * rewrite tick_pause_early by assumption. cbn [fst snd].
        destruct (longPause s); reflexivity.
      * rewrite tick_pause_over by assumption. cbn [fst snd].
        unfold longPause. cbn. rewrite Hb, Hp. cbn.
        destruct (buzzCount s =? 0); reflexivity.
    + (* idle *)
      rewrite tick_idle by assumption. cbn [fst snd].
      rewrite countLine_app, (proj1 (countLine_motorEvents 200 s)).
      unfold longPause. rewrite Hb, Hp. reflexivity.
Qed.

Lemma buzzCount_range_and_pattern_complete_witness :
  0 <= buzzCount thirdBuzz < 3
  /\ countLine PATTERN_COMPLETE
       (snd (handleBoundaryWarning (millis 2120) thirdBuzz)) = 1%nat.
Proof.
  assert (HR : Reachable thirdBuzz)
    by (apply Reachable_runLoop, Reachable_started).
  destruct (buzzCount_range_and_pattern_complete thirdBuzz HR) as [Hc Hl].
  split; [exact Hc |]. rewrite Hl. reflexivity.
Defined.

(** ** Entering failsafe *)

Lemma enterFailsafeMode_active (s : State) :
  inFailsafe s = true -> enterFailsafeMode s = (s, []).
Proof.
  intros H. unfold enterFailsafeMode.
  rewrite when_false; [reflexivity |]. rewrite H. reflexivity.
Qed.

Lemma enterFailsafeMode_inactive (s : State) :
  inFailsafe s = false ->
  enterFailsafeMode s =
    (failsafeEntered s,
     Println FAILSAFE_ENTERED
       :: Println "Exiting boundary warning mode"
       :: motorEvents 0 s
       ++ warningPulse ++ warningPulse ++ continuousMaximum).
Proof.
  destruct s as [lst lns bst csi fs ibw ifs bc bz bp cms]. cbn.
  intros ->. unfold enterFailsafeMode. unfold_procs. cbn.
  repeat (rewrite setMotorSpeed_eq; cbn).
  reflexivity.
Qed.

(** ** A scan that misses the target *)

(** The miss counter after one more miss. *)
Lemma scanAndRespond_miss (nets : list (string * Z)) (now : Z) (s : State) :
  targetFound nets = false ->
  scanAndRespond nets now s =
    let s1 := set_failedScans (wrap_int (failedScans s + 1)) s in
    let lines :=
      [Println "Scanning for networks...";
       Println ("Target network not found. Failed attempts: "
                  ++ String_ (failedScans s1))] in
    if failsafeCondition now s1
    then (fst (enterFailsafeMode s1), lines ++ snd (enterFailsafeMode s1))
    else (set_currentScanInterval FAST_SCAN_INTERVAL
            (set_currentMotorSpeed 255 s1),
          lines ++ motorEvents 255 s1).
Proof.
  intros Hmiss. unfold scanAndRespond. rewrite Hmiss.
  unfold respondToMiss, ifElse, println, emit, assign.
  rewrite !andThen_eq. cbn [fst snd app]. cbn zeta.
  destruct (failsafeCondition now _).
  - reflexivity.
  - rewrite ?andThen_eq, ?setMotorSpeed_eq. cbn [fst snd app].
    rewrite app_nil_r. reflexivity.
Qed.

Lemma failsafeCondition_spec (now : Z) (s : State) :
  failsafeCondition now s = true <->
  FAILSAFE_TIMEOUT < usub now (lastNetworkSeen s)
  \/ MAX_SCAN_ATTEMPTS <= failedScans s.
Proof.
  unfold failsafeCondition. known_consts. unfold FAILSAFE_TIMEOUT.
  rewrite orb_true_iff. lia.
Qed.

(** C2: when a scan does not find the target, the miss counter is
    incremented and, the failsafe flag being inactive, it becomes active if
    and only if the incremented counter has reached [MAX_SCAN_ATTEMPTS] or
    more than [FAILSAFE_TIMEOUT] ms have passed since the last sighting (an
    active flag stays active).  When neither holds, the scan commands
    intensity 255 and selects the fast interval and does nothing else: no
    other global changes and the mapper is not consulted. *)
Theorem scan_miss_failsafe (nets : list (string * Z)) (now : Z) (s : State) :
  targetFound nets = false ->
  let misses := wrap_int (failedScans s + 1) in
  let silence := usub now (lastNetworkSeen s) in
  let s' := fst (scanAndRespond nets now s) in
  failedScans s' = misses
  /\ (inFailsafe s = false ->
      (inFailsafe s' = true <->
       FAILSAFE_TIMEOUT < silence \/ MAX_SCAN_ATTEMPTS <= misses))
  /\ (inFailsafe s = true -> inFailsafe s' = true)
  /\ (silence <= FAILSAFE_TIMEOUT -> misses < MAX_SCAN_ATTEMPTS ->
      scanAndRespond nets now s =
        (set_currentScanInterval FAST_SCAN_INTERVAL
           (set_currentMotorSpeed 255 (set_failedScans misses s)),
         [Println "Scanning for networks...";
          Println ("Target network not found. Failed attempts: "
                     ++ String_ misses)]
           ++ motorEvents 255 s)).
Proof.
  intros Hmiss misses silence s'. subst s'.
  rewrite (scanAndRespond_miss nets now s Hmiss). cbn zeta.
  fold misses.
  pose proof (failsafeCondition_spec now (set_failedScans misses s)) as HC.
  cbn [failedScans lastNetworkSeen set_failedScans] in HC. fold silence in HC.
  split; [| split; [| split]].
  - destruct (failsafeCondition now (set_failedScans misses s));
      [| reflexivity].
    destruct (inFailsafe s) eqn:HF.
    + rewrite enterFailsafeMode_active by exact HF. reflexivity.
    + rewrite enterFailsafeMode_inactive by exact HF. reflexivity.
  - intros HF.
    destruct (failsafeCondition now (set_failedScans misses s)) eqn:E.
    + rewrite enterFailsafeMode_inactive by exact HF. cbn. tauto.
    + cbn. rewrite HF. split; [discriminate |].
      intros H. apply HC in H. discriminate.
  - intros HF.
    destruct (failsafeCondition now (set_failedScans misses s)) eqn:E.
    + rewrite enterFailsafeMode_active by exact HF. exact HF.
    + exact HF.
  - intros Hs Hm.
    destruct (failsafeCondition now (set_failedScans misses s)) eqn:E.
    + destruct (proj1 HC eq_refl); lia.
    + reflexivity.
Qed.

Lemma scan_miss_failsafe_witness :
  (inFailsafe (fst (scanAndRespond [] 1000 started)) = true <->
   FAILSAFE_TIMEOUT < usub 1000 (lastNetworkSeen started)
   \/ MAX_SCAN_ATTEMPTS <= wrap_int (failedScans started + 1))
  /\ scanAndRespond [] 1000 started =
       (set_currentScanInterval FAST_SCAN_INTERVAL
          (set_currentMotorSpeed 255 (set_failedScans 1 started)),
        [Println "Scanning for networks...";
         Println "Target network not found. Failed attempts: 1";
         AnalogWrite MOTOR_PIN 255; DigitalWrite LED_BUILTIN HIGH;
         Println "Motor speed set to: 255"]).
Proof.
  destruct (scan_miss_failsafe [] 1000 started eq_refl)
    as (_ & H1 & _ & H3).
  split.
  - exact (H1 eq_refl).
  - rewrite H3; [reflexivity | vm_compute; discriminate | reflexivity].
Defined.

(** ** What the pattern tick and a sighting leave alone *)

Ltac count_lines :=
  repeat first
    [ rewrite countLine_app
    | rewrite countLine_cons
    | rewrite (proj1 (countLine_motorEvents _ _))
    | rewrite (proj2 (countLine_motorEvents _ _)) ];
  try reflexivity.

(** A tick of the boundary pattern touches neither mode flag and never
    announces a failsafe entry. *)
Lemma handleBoundaryWarning_frame (t : Z) (s : State) :
  inFailsafe (fst (handleBoundaryWarning t s)) = inFailsafe s
  /\ inBoundaryWarning (fst (handleBoundaryWarning t s)) = inBoundaryWarning s
  /\ countLine FAILSAFE_ENTERED (snd (handleBoundaryWarning t s)) = 0%nat.
Proof.
  destruct s as [lst lns bst csi fs ibw ifs bc bz bp cms].
  destruct bz, bp; run_proc; repeat split; count_lines.
Qed.

Lemma exitFailsafeMode_active (s : State) :
  inFailsafe s = true ->
  exitFailsafeMode s =
    (set_currentMotorSpeed 0 (set_inFailsafe false s),
     Println "Exiting failsafe mode - WiFi restored"
       :: motorEvents 0 s ++ [DigitalWrite LED_BUILTIN LOW]).
Proof.
  destruct s as [lst lns bst csi fs ibw ifs bc bz bp cms]. cbn.
  intros ->. run_proc. reflexivity.
Qed.

(** After the response to a sighting the failsafe flag is inactive, and no
    failsafe entry was announced. *)
Lemma respondToSignal_frame (rssi : Z) (s : State) :
  inFailsafe (fst (respondToSignal rssi s)) = false
  /\ countLine FAILSAFE_ENTERED (snd (respondToSignal rssi s)) = 0%nat.
Proof.
  destruct s as [lst lns bst csi fs ibw ifs bc bz bp cms].
  unfold respondToSignal.
  destruct (rssi <=? RSSI_THRESHOLD), ifs, ibw; run_proc; split; count_lines.
Qed.

Lemma scanAndRespond_found (nets : list (string * Z)) (now : Z) (s : State) :
  targetFound nets = true ->
  scanAndRespond nets now s =
    let s1 := set_failedScans 0 (set_lastNetworkSeen now s) in
    let lines :=
      [Println "Scanning for networks...";
       Println ("Found " ++ TARGET_SSID ++ " - RSSI: "
                  ++ String_ (targetRSSI nets) ++ " dBm")] in
    (fst (respondToSignal (targetRSSI nets) s1),
     lines ++ snd (respondToSignal (targetRSSI nets) s1)).
Proof.
  intros Hfound. unfold scanAndRespond. rewrite Hfound.
  unfold println, emit, assign.
  rewrite !andThen_eq. cbn [fst snd app]. reflexivity.
Qed.

(** The response to a sighting starts by leaving failsafe. *)
Lemma respondToSignal_active (rssi : Z) (s : State) :
  inFailsafe s = true ->
  exists rest : list Event,
    snd (respondToSignal rssi s) = snd (exitFailsafeMode s) ++ rest.
Proof.
  intros HF. unfold respondToSignal. rewrite snd_andThen.
  rewrite when_true by exact HF. eexists. reflexivity.
Qed.

(** Where the failsafe flag stands after the scan part of an iteration. *)
Lemma scanPhase_inFailsafe (i : LoopInput) (s : State) :
  inFailsafe (fst (scanPhase i s)) =
  if scanDue i s then
    if targetFound (networks i) then false
    else inFailsafe s
         || failsafeCondition (scanTime i)
              (set_failedScans (wrap_int (failedScans s + 1)) s)
  else inFailsafe s.
Proof.
  unfold scanPhase, when. destruct (scanDue i s); [| reflexivity].
  rewrite fst_andThen.
  assert (forall x, inFailsafe (fst (assign (set_lastScanTime (loopTime i)) x))
                    = inFailsafe x) as -> by reflexivity.
  destruct (targetFound (networks i)) eqn:E.
  - rewrite scanAndRespond_found by exact E. cbn zeta. cbn [fst].
    apply respondToSignal_frame.
  - rewrite scanAndRespond_miss by exact E. cbn zeta.
    destruct (failsafeCondition _ _) eqn:C; cbn [fst].
    + destruct (inFailsafe s) eqn:F.
      * rewrite enterFailsafeMode_active by exact F. exact F.
      * rewrite enterFailsafeMode_inactive by exact F. reflexivity.
    + rewrite orb_false_r. reflexivity.
Qed.

Lemma patternPhase_frame (i : LoopInput) (s : State) :
  inFailsafe (fst (patternPhase i s)) = inFailsafe s
  /\ countLine FAILSAFE_ENTERED (snd (patternPhase i s)) = 0%nat.
Proof.
  unfold patternPhase, when.
  destruct (inBoundaryWarning s && negb (inFailsafe s)).
  - split; apply handleBoundaryWarning_frame.
  - split; reflexivity.
Qed.

Lemma loop_inFailsafe (i : LoopInput) (s : State) :
  inFailsafe (fst (loop i s)) = inFailsafe (fst (scanPhase i s)).
Proof.
  unfold loop. rewrite !fst_andThen.
  apply (proj1 (patternPhase_frame i _)).
Qed.

(** ** Leaving failsafe *)

Lemma loop_events (i : LoopInput) (s : State) :
  snd (loop i s) =
  snd (scanPhase i s) ++ snd (patternPhase i (fst (scanPhase i s)))
    ++ [Delay 10].
Proof. unfold loop. rewrite !snd_andThen. reflexivity. Qed.

Lemma runLoop_stays_failsafe (inputs : list LoopInput) (s : State) :
  Forall (fun i => targetFound (networks i) = false) inputs ->
  inFailsafe s = true ->
  inFailsafe (fst (runLoop inputs s)) = true.
Proof.
  intros HA. revert s. induction HA as [| i rest Hi _ IH]; intros s HF.
  - exact HF.
  - cbn [runLoop]. rewrite fst_andThen. apply IH.
    rewrite loop_inFailsafe, scanPhase_inFailsafe, Hi, HF.
    destruct (scanDue i s); reflexivity.
Qed.

(** C3: from a reachable state with failsafe active, an iteration of the
    loop deactivates failsafe if and only if it makes a scan and that scan
    finds the target; whatever the clock readings, iterations whose scans do
    not find the target leave it active.  On the iteration that leaves
    failsafe the first thing written to the motor is 0, written by
    [exitFailsafeMode], which leaves the commanded intensity at 0. *)
Theorem failsafe_left_only_by_sighting (s : State) :
  Reachable s -> inFailsafe s = true ->
  (forall i : LoopInput,
      inFailsafe (fst (loop i s)) = false <->
      scanDue i s = true /\ targetFound (networks i) = true)
  /\ (forall inputs : list LoopInput,
        Forall (fun i => targetFound (networks i) = false) inputs ->
        inFailsafe (fst (runLoop inputs s)) = true)
  /\ (forall i : LoopInput,
        inFailsafe (fst (loop i s)) = false ->
        exists rest : list Z, motorWrites (snd (loop i s)) = 0 :: rest)
  /\ currentMotorSpeed (fst (exitFailsafeMode s)) = 0
  /\ inFailsafe (fst (exitFailsafeMode s)) = false
  /\ motorWrites (snd (exitFailsafeMode s)) = [0].
Proof.
  intros HR HF.
  assert (Hexit : forall i,
             inFailsafe (fst (loop i s)) = false <->
             scanDue i s = true /\ targetFound (networks i) = true).
  { intros i. rewrite loop_inFailsafe, scanPhase_inFailsafe, HF.
    destruct (scanDue i s), (targetFound (networks i)); cbn;
      intuition discriminate. }
  destruct (Reachable_Inv s HR) as [_ _ _ H].
  destruct (H HF) as (_ & _ & _ & Hspeed).
  split; [exact Hexit |].
  split; [intros inputs HA; apply runLoop_stays_failsafe; assumption |].
  split.
  - intros i Hout. apply Hexit in Hout. destruct Hout as [Hdue Hfound].
    rewrite loop_events. unfold scanPhase at 1.
    rewrite when_true by exact Hdue.
    rewrite snd_andThen, scanAndRespond_found by exact Hfound.
    cbn zeta. cbn [snd].
    set (s1 := set_failedScans 0 (set_lastNetworkSeen (scanTime i) s)).
    assert (HF1 : inFailsafe s1 = true) by exact HF.
    destruct (respondToSignal_active (targetRSSI (networks i)) s1 HF1)
      as [rest Hrest].
    rewrite Hrest, exitFailsafeMode_active by exact HF1.
    rewrite ?motorWrites_app. cbn [fst snd motorWrites app].
    rewrite ?motorWrites_app, motorWrites_motorEvents.
    replace (currentMotorSpeed s1) with 255 by (symmetry; exact Hspeed).
    cbn. eexists. reflexivity.
  - rewrite exitFailsafeMode_active by exact HF. cbn [fst snd].
    repeat split. cbn [motorWrites].
    rewrite ?motorWrites_app, motorWrites_motorEvents, Hspeed. reflexivity.
Qed.

Lemma failsafe_left_only_by_sighting_witness :
  inFailsafe (fst (loop (sighting 1600 (-50)) lost)) = false
  /\ (exists rest : list Z,
        motorWrites (snd (loop (sighting 1600 (-50)) lost)) = 0 :: rest)
  /\ inFailsafe (fst (runLoop [blackout 1600; blackout 40000] lost)) = true.
Proof.
  destruct (failsafe_left_only_by_sighting lost Reachable_lost eq_refl)
    as (H1 & H2 & H3 & _).
  split; [| split].
  - apply H1. split; reflexivity.
  - apply H3, H1. split; reflexivity.
  - apply H2. repeat constructor.
Defined.

(** ** The failsafe entry sequence *)

Lemma exitBoundaryWarning_events (s : State) :
  snd (exitBoundaryWarning s) =
  Println "Exiting boundary warning mode" :: motorEvents 0 s.
Proof.
  destruct s as [lst lns bst csi fs ibw ifs bc bz bp cms].
  unfold exitBoundaryWarning. run_proc. reflexivity.
Qed.

(** The scan part of an iteration announces a failsafe entry once when it
    takes the flag from inactive to active, and not at all otherwise. *)
Lemma scanPhase_failsafe_lines (i : LoopInput) (s : State) :
  countLine FAILSAFE_ENTERED (snd (scanPhase i s)) =
  if negb (inFailsafe s) && inFailsafe (fst (scanPhase i s))
  then 1%nat else 0%nat.
Proof.
  rewrite scanPhase_inFailsafe. unfold scanPhase, when.
  destruct (scanDue i s).
  - rewrite snd_andThen. cbn [assign snd]. rewrite app_nil_r.
    destruct (targetFound (networks i)) eqn:E.
    + rewrite andb_false_r.
      rewrite scanAndRespond_found by exact E. cbn zeta. cbn [snd].
      count_lines. rewrite (proj2 (respondToSignal_frame _ _)). reflexivity.
    + rewrite scanAndRespond_miss by exact E. cbn zeta.
      destruct (failsafeCondition _ _) eqn:C; cbn [snd].
      * destruct (inFailsafe s) eqn:F.
        -- rewrite enterFailsafeMode_active by exact F. reflexivity.
        -- rewrite enterFailsafeMode_inactive by exact F. cbn [snd].
           count_lines.
      * rewrite orb_false_r.
        count_lines. destruct (inFailsafe s); reflexivity.
  - destruct (inFailsafe s); reflexivity.
Qed.

(** C8: the failsafe entry is edge triggered and runs once.  Called with
    the flag already active, [enterFailsafeMode] does nothing.  Called with
    the flag inactive it sets the flag, first runs the exit of the boundary
    pattern, then two pulses of full speed (255) for 500 ms and off (0) for
    300 ms, and ends with the motor at 255.  An iteration of the loop runs
    the sequence once when it takes the flag from inactive to active and not
    at all otherwise, and in every reachable state with the flag active the
    commanded intensity is 255. *)
Theorem enterFailsafeMode_one_shot :
  (forall s : State, inFailsafe s = true -> enterFailsafeMode s = (s, []))
  /\ (forall s : State,
        inFailsafe s = false ->
        enterFailsafeMode s =
          (failsafeEntered s,
           Println FAILSAFE_ENTERED
             :: snd (exitBoundaryWarning (set_inFailsafe true s))
             ++ warningPulse ++ warningPulse ++ continuousMaximum))
  /\ actuation (warningPulse ++ warningPulse ++ continuousMaximum) =
       [AnalogWrite MOTOR_PIN 255; Delay 500;
        AnalogWrite MOTOR_PIN 0; Delay 300;
        AnalogWrite MOTOR_PIN 255; Delay 500;
        AnalogWrite MOTOR_PIN 0; Delay 300;
        AnalogWrite MOTOR_PIN 255]
  /\ (forall (i : LoopInput) (s : State),
        countLine FAILSAFE_ENTERED (snd (loop i s)) =
        if negb (inFailsafe s) && inFailsafe (fst (loop i s))
        then 1%nat else 0%nat)
  /\ (forall s : State,
        Reachable s -> inFailsafe s = true -> currentMotorSpeed s = 255).
Proof.
  split; [exact enterFailsafeMode_active |].
  split.
  { intros s HF. rewrite enterFailsafeMode_inactive by exact HF.
    rewrite exitBoundaryWarning_events. reflexivity. }
  split; [reflexivity |].
  split.
  - intros i s. rewrite loop_inFailsafe, loop_events.
    rewrite !countLine_app, scanPhase_failsafe_lines.
    rewrite (proj2 (patternPhase_frame i _)).
    destruct (negb (inFailsafe s) && inFailsafe (fst (scanPhase i s)));
      reflexivity.
  - intros s HR HF. destruct (Reachable_Inv s HR) as [_ _ _ H].
    apply (H HF).
Qed.

Lemma enterFailsafeMode_one_shot_witness :
  enterFailsafeMode lost = (lost, [])
  /\ motorWrites (snd (enterFailsafeMode thirdBuzz)) = [0; 255; 0; 255; 0; 255]
  /\ currentMotorSpeed lost = 255.
Proof.
  destruct enterFailsafeMode_one_shot as (H1 & H2 & _ & _ & H5).
  split; [| split].
  - apply H1. reflexivity.
  - rewrite (H2 thirdBuzz eq_refl). reflexivity.
  - apply H5; [exact Reachable_lost | reflexivity].
Defined.

(** ** A miss while the boundary pattern runs *)

Lemma scanPhase_miss (i : LoopInput) (s : State) :
  scanDue i s = true -> targetFound (networks i) = false ->
  failsafeCondition (scanTime i)
    (set_failedScans (wrap_int (failedScans s + 1)) s) = false ->
  scanPhase i s =
    (set_lastScanTime (loopTime i)
       (set_currentScanInterval FAST_SCAN_INTERVAL
          (set_currentMotorSpeed 255
             (set_failedScans (wrap_int (failedScans s + 1)) s))),
     snd (scanAndRespond (networks i) (scanTime i) s)).
Proof.
  intros Hdue Hmiss Hcond. unfold scanPhase.
  rewrite when_true by exact Hdue.
  rewrite andThen_eq. rewrite scanAndRespond_miss by exact Hmiss.
  cbn zeta. rewrite Hcond. cbn [fst snd assign]. rewrite app_nil_r.
  reflexivity.
Qed.

(** C10: a scan that misses the target without meeting the failsafe
    condition leaves the boundary-warning flag and the state of the pattern
    as they were and commands intensity 255.  If the boundary pattern was
    entered before such a scan it is still entered after it, the pattern
    handler is run in the same iteration of the loop on the globals the scan
    left, and what it writes to the motor can replace the 255: there are
    reachable states where the iteration writes 255 and then 200, and where
    it writes 255 and then 0. *)
Theorem miss_leaves_boundary_pattern_running :
  (forall (nets : list (string * Z)) (now : Z) (s : State),
      targetFound nets = false ->
      usub now (lastNetworkSeen s) <= FAILSAFE_TIMEOUT ->
      wrap_int (failedScans s + 1) < MAX_SCAN_ATTEMPTS ->
      let s' := fst (scanAndRespond nets now s) in
      inBoundaryWarning s' = inBoundaryWarning s
      /\ buzzing s' = buzzing s /\ buzzPause s' = buzzPause s
      /\ buzzCount s' = buzzCount s /\ buzzStartTime s' = buzzStartTime s
      /\ inFailsafe s' = inFailsafe s
      /\ currentMotorSpeed s' = 255)
  /\ (forall (i : LoopInput) (s : State),
        Reachable s -> inBoundaryWarning s = true ->
        scanDue i s = true -> targetFound (networks i) = false ->
        usub (scanTime i) (lastNetworkSeen s) <= FAILSAFE_TIMEOUT ->
        wrap_int (failedScans s + 1) < MAX_SCAN_ATTEMPTS ->
        let s1 := fst (scanPhase i s) in
        inBoundaryWarning s1 = true
        /\ currentMotorSpeed s1 = 255
        /\ patternPhase i s1 = handleBoundaryWarning (tickTime i) s1
        /\ inBoundaryWarning (fst (loop i s)) = true)
  /\ (Reachable betweenBuzzes
      /\ inBoundaryWarning betweenBuzzes = true
      /\ targetFound (networks (blackout 1600)) = false
      /\ inFailsafe (fst (loop (blackout 1600) betweenBuzzes)) = false
      /\ motorWrites (snd (loop (blackout 1600) betweenBuzzes)) = [255; 200]
      /\ currentMotorSpeed (fst (loop (blackout 1600) betweenBuzzes)) = 200)
  /\ (Reachable firstBuzz
      /\ inBoundaryWarning firstBuzz = true
      /\ targetFound (networks (blackoutTick 1200 1300)) = false
      /\ inFailsafe (fst (loop (blackoutTick 1200 1300) firstBuzz)) = false
      /\ motorWrites (snd (loop (blackoutTick 1200 1300) firstBuzz))
           = [255; 0]
      /\ currentMotorSpeed (fst (loop (blackoutTick 1200 1300) firstBuzz))
           = 0).
Proof.
  assert (Hcond : forall now s,
             usub now (lastNetworkSeen s) <= FAILSAFE_TIMEOUT ->
             wrap_int (failedScans s + 1) < MAX_SCAN_ATTEMPTS ->
             failsafeCondition now
               (set_failedScans (wrap_int (failedScans s + 1)) s) = false).
  { intros now s Hs Hm.
    destruct (failsafeCondition now _) eqn:E; [| reflexivity].
    apply failsafeCondition_spec in E. cbn in E. lia. }
  split; [| split; [| split]].
  - intros nets now s Hmiss Hs Hm. cbn zeta.
    rewrite scanAndRespond_miss by exact Hmiss. cbn zeta.
    rewrite Hcond by assumption. repeat split.
  - intros i s HR HW Hdue Hmiss Hs Hm. cbn zeta.
    rewrite scanPhase_miss by auto. cbn [fst].
    destruct (Reachable_Inv s HR) as [_ _ _ H].
    assert (HF : inFailsafe s = false).
    { destruct (inFailsafe s); [| reflexivity].
      destruct (H eq_refl) as [Hw _]. congruence. }
    assert (Htick :
              patternPhase i
                (set_lastScanTime (loopTime i)
                   (set_currentScanInterval FAST_SCAN_INTERVAL
                      (set_currentMotorSpeed 255
                         (set_failedScans (wrap_int (failedScans s + 1)) s))))
              = handleBoundaryWarning (tickTime i)
                  (set_lastScanTime (loopTime i)
                     (set_currentScanInterval FAST_SCAN_INTERVAL
                        (set_currentMotorSpeed 255
                           (set_failedScans (wrap_int (failedScans s + 1))
                              s))))).
    { unfold patternPhase. apply when_true. cbn. rewrite HW, HF.
      reflexivity. }
    repeat split; try assumption.
    unfold loop. rewrite !fst_andThen. cbn [delay emit fst].
    rewrite scanPhase_miss by auto. cbn [fst]. rewrite Htick.
    rewrite (proj1 (proj2 (handleBoundaryWarning_frame _ _))). exact HW.
  - split; [apply Reachable_runLoop, Reachable_started |].
    repeat split; reflexivity.
  - split; [apply Reachable_runLoop, Reachable_started |].
    repeat split; reflexivity.
Qed.

Lemma miss_leaves_boundary_pattern_running_witness :
  inBoundaryWarning (fst (scanAndRespond [] (millis 1200) firstBuzz)) = true
  /\ patternPhase (blackoutTick 1200 1300)
       (fst (scanPhase (blackoutTick 1200 1300) firstBuzz)) =
     handleBoundaryWarning (millis 1300)
       (fst (scanPhase (blackoutTick 1200 1300) firstBuzz)).
Proof.
  destruct miss_leaves_boundary_pattern_running as (H1 & H2 & _ & Hf).
  split.
  - destruct (H1 [] (millis 1200) firstBuzz) as [Hw _].
    + reflexivity.
    + vm_compute. discriminate.
    + reflexivity.
    + rewrite Hw. reflexivity.
  - destruct (H2 (blackoutTick 1200 1300) firstBuzz) as (_ & _ & Ht & _).
    + apply Hf.
    + reflexivity.
    + reflexivity.
    + reflexivity.
    + vm_compute. discriminate.
    + reflexivity.
    + exact Ht.
Defined.

(** ** One cycle of the boundary pattern *)

Lemma runTicks_cons (t : Z) (rest : list Z) (s : State) :
  runTicks (t :: rest) s =
  (fst (runTicks rest (fst (handleBoundaryWarning t s))),
   snd (handleBoundaryWarning t s)
     ++ snd (runTicks rest (fst (handleBoundaryWarning t s)))).
Proof. cbn [runTicks]. apply andThen_eq. Qed.

Lemma runTicks_app (a b : list Z) (s : State) :
  runTicks (a ++ b) s =
  (fst (runTicks b (fst (runTicks a s))),
   snd (runTicks a s) ++ snd (runTicks b (fst (runTicks a s)))).
Proof.
  revert s. induction a as [| t a IH]; intros s.
  - cbn. destruct (runTicks b s); reflexivity.
  - rewrite <- app_comm_cons, !runTicks_cons, IH. cbn [fst snd].
    rewrite app_assoc. reflexivity.
Qed.

Lemma usub_millis_between (a t : Z) :
  a <= t < a + 4294967296 -> usub (millis t) (millis a) = t - a.
Proof.
  intros H. replace t with (a + (t - a)) at 1 by lia.
  apply usub_millis. lia.
Qed.

(** Ticks while a buzz is on and not yet over change nothing. *)
Lemma runTicks_during_buzz (b : Z) (ticks : list Z) (s : State) :
  buzzing s = true -> buzzPause s = false -> buzzStartTime s = millis b ->
  within b (b + BUZZ_DURATION) ticks ->
  runTicks (List.map millis ticks) s = (s, []).
Proof.
  intros Hb Hp Ht HW. induction HW as [| t ticks Ht1 _ IH].
  - reflexivity.
  - cbn [List.map]. rewrite runTicks_cons.
    rewrite tick_pulsing_early; try assumption.
    + cbn [fst snd]. rewrite IH. reflexivity.
    + rewrite Ht, usub_millis_between; unfold BUZZ_DURATION in *; lia.
Qed.

(** Ticks while a pause is on and not yet over change nothing. *)
Lemma runTicks_during_pause (b : Z) (ticks : list Z) (s : State) :
  buzzing s = false -> buzzPause s = true -> buzzStartTime s = millis b ->
  within b (b + pauseDuration s) ticks ->
  runTicks (List.map millis ticks) s = (s, []).
Proof.
  intros Hb Hp Ht HW. induction HW as [| t ticks Ht1 _ IH].
  - reflexivity.
  - cbn [List.map]. rewrite runTicks_cons.
    rewrite tick_pause_early; try assumption.
    + cbn [fst snd]. rewrite IH. reflexivity.
    + assert (pauseDuration s <= 2000)
        by (unfold pauseDuration, PATTERN_PAUSE, BUZZ_PAUSE;
            destruct (buzzCount s =? 0); lia).
      rewrite Ht, usub_millis_between; lia.
Qed.

(** A buzz that is not the third, and the short pause after it: from [Idle]
    with the motor off, back to [Idle] with one more buzz counted. *)
Lemma buzz_and_short_pause (b : Z) (during after : list Z) (s : State) :
  buzzing s = false -> buzzPause s = false -> currentMotorSpeed s = 0 ->
  0 <= buzzCount s < 2 ->
  within b (b + BUZZ_DURATION) during ->
  within (b + BUZZ_DURATION) (b + BUZZ_DURATION + BUZZ_PAUSE) after ->
  let r := runTicks (List.map millis (buzzTicks b during after)) s in
  fst r = set_buzzStartTime (millis (b + BUZZ_DURATION))
            (set_buzzCount (buzzCount s + 1) s)
  /\ motorWrites (snd r) = [200; 0]
  /\ countLine PATTERN_COMPLETE (snd r) = 0%nat.
Proof.
  intros Hb Hp Hm Hc Hd Ha. cbn zeta. unfold buzzTicks.
  cbn [app List.map]. rewrite runTicks_cons.
  rewrite (tick_idle (millis b) s Hb Hp). cbn [fst snd].
  set (s1 := set_currentMotorSpeed 200 _).
  rewrite map_app, runTicks_app.
  rewrite (runTicks_during_buzz b during s1) by (assumption || reflexivity).
  cbn [fst snd app List.map]. rewrite runTicks_cons.
  rewrite (tick_pulsing_short _ s1);
    [| reflexivity | exact Hp
     | cbn; rewrite usub_millis; unfold BUZZ_DURATION; lia | exact Hc].
  cbn [fst snd].
  set (s2 := set_buzzStartTime _ _).
  rewrite map_app, runTicks_app.
  rewrite (runTicks_during_pause (b + BUZZ_DURATION) after s2);
    [| reflexivity | reflexivity | reflexivity |].
  2:{ unfold pauseDuration. cbn.
      replace (buzzCount s + 1 =? 0) with false by lia. exact Ha. }
  cbn [fst snd app List.map]. rewrite runTicks_cons.
  rewrite (tick_pause_over _ s2); [| reflexivity | reflexivity |].
  2:{ unfold pauseDuration. cbn.
      replace (buzzCount s + 1 =? 0) with false by lia.
      rewrite usub_millis; unfold BUZZ_PAUSE; lia. }
  cbn [fst snd runTicks skip]. rewrite !app_nil_r.
  split; [| split].
  - destruct s. cbn in *. subst. reflexivity.
  - rewrite !motorWrites_app, !motorWrites_motorEvents.
    subst s1. cbn. rewrite Hm. reflexivity.
  - count_lines.
Qed.

(** The third buzz: from [Idle] with two buzzes counted into the long pause,
    and out of it at the first tick [PATTERN_PAUSE] after the buzz ended. *)
Lemma third_buzz_and_long_pause (b : Z) (during after : list Z) (s : State) :
  buzzing s = false -> buzzPause s = false -> currentMotorSpeed s = 0 ->
  buzzCount s = 2 ->
  within b (b + BUZZ_DURATION) during ->
  within (b + BUZZ_DURATION) (b + BUZZ_DURATION + PATTERN_PAUSE) after ->
  let r := runTicks (List.map millis (lastBuzzTicks b during after)) s in
  fst r = set_buzzStartTime (millis (b + BUZZ_DURATION))
            (set_buzzPause true (set_buzzCount 0 s))
  /\ motorWrites (snd r) = [200; 0]
  /\ countLine PATTERN_COMPLETE (snd r) = 1%nat
  /\ handleBoundaryWarning (millis (b + BUZZ_DURATION + PATTERN_PAUSE))
       (fst r) =
     (set_buzzStartTime (millis (b + BUZZ_DURATION)) (set_buzzCount 0 s), []).
Proof.
  intros Hb Hp Hm Hc Hd Ha. cbn zeta. unfold lastBuzzTicks.
  cbn [app List.map]. rewrite runTicks_cons.
  rewrite (tick_idle (millis b) s Hb Hp). cbn [fst snd].
  set (s1 := set_currentMotorSpeed 200 _).
  rewrite map_app, runTicks_app.
  rewrite (runTicks_during_buzz b during s1) by (assumption || reflexivity).
  cbn [fst snd app List.map]. rewrite runTicks_cons.
  rewrite (tick_pulsing_long _ s1);
    [| reflexivity | exact Hp
     | cbn; rewrite usub_millis; unfold BUZZ_DURATION; lia | exact Hc].
  cbn [fst snd].
  set (s2 := set_buzzStartTime _ _).
  rewrite (runTicks_during_pause (b + BUZZ_DURATION) after s2);
    [| reflexivity | reflexivity | reflexivity | exact Ha].
  cbn [fst snd]. rewrite !app_nil_r.
  split; [| split; [| split]].
  - destruct s. cbn in *. subst. reflexivity.
  - rewrite !motorWrites_app, !motorWrites_motorEvents.
    subst s1. cbn. rewrite Hm. reflexivity.
  - count_lines.
  - rewrite (tick_pause_over _ s2); [| reflexivity | reflexivity |].
    + destruct s. cbn in *. subst. reflexivity.
    + cbn. rewrite usub_millis; unfold PATTERN_PAUSE; lia.
Qed.

(** The state and the effects of the cycle up to the tick that ends the long
    pause. *)
Lemma cycle_before_finish (c : Schedule) (s : State) :
  wellTimed c ->
  let entered := fst (enterBoundaryWarning s) in
  let r := runTicks (List.map millis (ticksBeforeFinish c)) entered in
  longPause (fst r) = true
  /\ motorWrites (snd r) = [200; 0; 200; 0; 200; 0]
  /\ countLine PATTERN_COMPLETE (snd r) = 1%nat
  /\ cycleDone
       (fst (handleBoundaryWarning (millis (finish c)) (fst r)),
        snd r ++ snd (handleBoundaryWarning (millis (finish c)) (fst r))).
Proof.
  intros [_ _ Hd1 Ha1 Hd2 Ha2 Hd3 Ha3]. cbn zeta.
  rewrite enterBoundaryWarning_state.
  set (s0 := set_currentMotorSpeed 0 _).
  unfold ticksBeforeFinish. rewrite !map_app, !runTicks_app.
  destruct (buzz_and_short_pause (start c) (during1 c) (after1 c) s0)
    as (E1 & M1 & L1); try reflexivity; try assumption; [cbn; lia |].
  cbn zeta in E1, M1, L1. rewrite E1.
  set (s1 := set_buzzStartTime (millis (start c + BUZZ_DURATION)) _) in *.
  destruct (buzz_and_short_pause (buzz2 c) (during2 c) (after2 c) s1)
    as (E2 & M2 & L2); try reflexivity; try assumption; [cbn; lia |].
  cbn zeta in E2, M2, L2. cbn [fst snd]. rewrite E2.
  set (s2 := set_buzzStartTime (millis (buzz2 c + BUZZ_DURATION)) _) in *.
  destruct (third_buzz_and_long_pause (buzz3 c) (during3 c) (after3 c) s2)
    as (E3 & M3 & L3 & F3); try reflexivity; try assumption.
  cbn zeta in E3, M3, L3, F3.
  unfold finish. rewrite F3, E3. cbn [fst snd].
  rewrite !motorWrites_app, !countLine_app, M1, M2, M3, L1, L2, L3.
  unfold cycleDone. cbn [fst snd].
  rewrite !motorWrites_app, !countLine_app, M1, M2, M3, L1, L2, L3.
  repeat split.
Qed.

Ltac progress_side :=
  unfold set_currentMotorSpeed, set_buzzStartTime, set_buzzing,
    set_buzzPause, set_buzzCount;
  cbn [buzzing buzzPause buzzCount buzzStartTime];
  unfold RESTART, BUZZ_DURATION, BUZZ_PAUSE, PATTERN_PAUSE in *;
  first [assumption | reflexivity | subst; reflexivity | lia].

(** One tick keeps the pattern within [Progress], as long as the tick is
    later than the one before and within the nominal cycle time. *)
Lemma Progress_tick (t0 last t : Z) (s : State) (lines : nat) :
  Progress t0 last s lines -> last < t <= t0 + CYCLE ->
  Progress t0 t (fst (handleBoundaryWarning (millis t) s))
    (lines + countLine PATTERN_COMPLETE
               (snd (handleBoundaryWarning (millis t) s))).
Proof.
  unfold CYCLE. intros HP Ht.
  destruct HP as [Hb Hp Hc Hl Hn | b Hb Hp Hc Hs Hl Hn | e Hb Hp Hc Hs Hl Hn
                 | Hb Hp Hc Hl Hn | e Hb Hp Hc Hs Hl Hn].
  - (* entered: the first buzz starts *)
    rewrite (tick_idle _ s Hb Hp). cbn [fst snd]. count_lines.
    apply (Progress_buzz _ _ _ _ t); progress_side.
  - (* a buzz is on *)
    assert (He : usub (millis t) (buzzStartTime s) = t - b)
      by (rewrite Hs; apply usub_millis_between; progress_side).
    destruct (Z.lt_ge_cases (t - b) BUZZ_DURATION) as [early | over].
    + rewrite tick_pulsing_early by (assumption || lia).
      cbn [fst snd]. apply (Progress_buzz _ _ _ _ b); progress_side.
    + destruct (Z.eq_dec (buzzCount s) 2) as [last3 | notlast].
      * rewrite tick_pulsing_long by (assumption || lia).
        cbn [fst snd]. count_lines.
        apply (Progress_longPause _ _ _ _ t); progress_side.
      * rewrite tick_pulsing_short by (assumption || lia).
        cbn [fst snd]. count_lines.
        apply (Progress_shortPause _ _ _ _ t); progress_side.
  - (* a short pause is on *)
    assert (He : usub (millis t) (buzzStartTime s) = t - e)
      by (rewrite Hs; apply usub_millis_between; progress_side).
    assert (Hd : pauseDuration s = BUZZ_PAUSE).
    { unfold pauseDuration. replace (buzzCount s =? 0) with false by lia.
      reflexivity. }
    destruct (Z.lt_ge_cases (t - e) BUZZ_PAUSE) as [early | over].
    + rewrite tick_pause_early by (assumption || lia).
      cbn [fst snd]. apply (Progress_shortPause _ _ _ _ e); progress_side.
    + rewrite tick_pause_over by (assumption || lia).
      cbn [fst snd]. apply Progress_between; progress_side.
  - (* idle between two buzzes: the next buzz starts *)
    rewrite (tick_idle _ s Hb Hp). cbn [fst snd]. count_lines.
    apply (Progress_buzz _ _ _ _ t); progress_side.
  - (* the long pause cannot end within the nominal cycle time *)
    assert (He : usub (millis t) (buzzStartTime s) = t - e)
      by (rewrite Hs; apply usub_millis_between; progress_side).
    assert (Hd : pauseDuration s = PATTERN_PAUSE).
    { unfold pauseDuration. rewrite Hc. reflexivity. }
    rewrite tick_pause_early;
      [| assumption | assumption | rewrite He, Hd; progress_side].
    cbn [fst snd]. apply (Progress_longPause _ _ _ _ e); progress_side.
Qed.

Lemma Progress_runTicks (t0 : Z) (ticks : list Z) :
  forall (last : Z) (s : State) (lines : nat),
    Progress t0 last s lines -> ticksAfter last (t0 + CYCLE) ticks ->
    exists last' : Z,
      Progress t0 last' (fst (runTicks (List.map millis ticks) s))
        (lines + countLine PATTERN_COMPLETE
                   (snd (runTicks (List.map millis ticks) s))).
Proof.
  induction ticks as [| t rest IH]; intros last s lines HP HT.
  - exists last. cbn. rewrite Nat.add_0_r. exact HP.
  - destruct HT as [Ht HT]. cbn [List.map]. rewrite runTicks_cons.
    cbn [fst snd]. rewrite countLine_app, Nat.add_assoc.
    apply (IH t); [| exact HT].
    apply (Progress_tick t0 last); assumption.
Qed.

(** X16: with no two ticks at the same clock reading the cycle is never done
    within its nominal time, however the ticks are placed: entered and
    ticked at strictly increasing clock readings over at most 3100 ms, the
    pattern is never back in idle with its three buzzes and its
    pattern-complete line behind it. *)
Lemma boundary_cycle_needs_more_than_CYCLE (t0 : Z) (ticks : list Z)
    (s : State) :
  ticksAfter (t0 - 1) (t0 + CYCLE) ticks ->
  ~ cycleDone
      (runTicks (List.map millis ticks) (fst (enterBoundaryWarning s))).
Proof.
  intros HT (Hi & Hc & _ & Hl).
  destruct (Progress_runTicks t0 ticks (t0 - 1)
              (fst (enterBoundaryWarning s)) 0) as [last HP].
  - rewrite enterBoundaryWarning_state.
    apply Progress_entered; cbn; first [reflexivity | lia].
  - exact HT.
  - cbn [Nat.add] in HP. rewrite Hl in HP. unfold idle in Hi.
    destruct HP as [_ _ _ _ Hn | b _ _ _ _ _ Hn | e _ _ _ _ _ Hn
                   | _ _ _ _ Hn | e _ Hp _ _ _ _];
      try discriminate Hn.
    (* only the long pause has printed the line, and it is not idle *)
    rewrite Hp, andb_false_r in Hi. discriminate Hi.
Qed.

(** C4, as the code has it: entered and ticked at every deadline of the
    pattern (and at any other moments before the deadlines), the boundary
    pattern goes through exactly one cycle of three buzzes and the long pause
    and is back in [Idle] at the tick that comes
    [3*(BUZZ_DURATION+BUZZ_PAUSE) - BUZZ_PAUSE + PATTERN_PAUSE] ms after the
    first one plus the two waits for a restart: the time between the tick
    that ends a short pause and the next tick, which is the one that starts
    the next buzz.  Until that tick the machine is in the long pause.  The
    cycle takes the nominal time only when both waits are zero. *)
Theorem boundary_cycle_duration (c : Schedule) (s : State) :
  wellTimed c ->
  let entered := fst (enterBoundaryWarning s) in
  finish c - start c = CYCLE + restart1 c + restart2 c
  /\ (finish c - start c = CYCLE <-> restart1 c = 0 /\ restart2 c = 0)
  /\ longPause
       (fst (runTicks (List.map millis (ticksBeforeFinish c)) entered)) = true
  /\ cycleDone
       (runTicks (List.map millis (ticksBeforeFinish c ++ [finish c]))
          entered).
Proof.
  intros WT. cbn zeta.
  assert (Hlen : finish c - start c = CYCLE + restart1 c + restart2 c).
  { unfold finish, buzz3, buzz2, CYCLE. lia. }
  split; [exact Hlen |].
  split.
  { destruct WT as [H1 H2 _ _ _ _ _ _]. lia. }
  destruct (cycle_before_finish c s WT) as (HL & _ & _ & HD).
  cbn zeta in HL, HD.
  split; [exact HL |].
  rewrite map_app, runTicks_app. cbn [List.map].
  rewrite (runTicks_cons (millis (finish c)) []). cbn [runTicks skip fst snd].
  rewrite app_nil_r. exact HD.
Qed.

Lemma boundary_cycle_duration_witness :
  finish sampleSchedule - start sampleSchedule = 3120
  /\ cycleDone
       (runTicks
          (List.map millis
             (ticksBeforeFinish sampleSchedule ++ [finish sampleSchedule]))
          (fst (enterBoundaryWarning started))).
Proof.
  assert (WT : wellTimed sampleSchedule)
    by (constructor; cbn; unfold within; repeat constructor;
        vm_compute; discriminate).
  destruct (boundary_cycle_duration sampleSchedule started WT)
    as (H1 & _ & _ & H4).
  split; [reflexivity | exact H4].
Defined.

(** C4, as the spec has it, fails: ticked at every millisecond for the
    nominal 3100 ms, or by the loop itself every 10 ms, the machine has made
    its three buzzes but is still in the long pause, not in [Idle]. *)
Lemma boundary_cycle_not_done_after_CYCLE :
  (longPause (fst tickedEveryMillisecond) = true
   /\ motorWrites (snd tickedEveryMillisecond) = [200; 0; 200; 0; 200; 0]
   /\ ~ cycleDone tickedEveryMillisecond)
  /\ (longPause (fst loopedEveryTenMilliseconds) = true
      /\ motorWrites (snd loopedEveryTenMilliseconds)
           = [200; 0; 200; 0; 200; 0]
      /\ ~ cycleDone loopedEveryTenMilliseconds).
Proof.
  split; (split; [vm_compute; reflexivity |]);
    (split; [vm_compute; reflexivity |]);
    intros [H _]; vm_compute in H; discriminate.
Qed.

(** * Further properties of the sketch *)

(** ** The mapper on all strengths *)

(** X1: for every strength the mapped intensity lies between 0 and 150, and
    over all strengths a stronger signal never maps to a higher intensity. *)
Theorem mapRSSIToMotorSpeed_range_antitone :
  (forall rssi : Z, 0 <= mapRSSIToMotorSpeed rssi <= 150)
  /\ (forall a b : Z,
        a <= b -> mapRSSIToMotorSpeed b <= mapRSSIToMotorSpeed a).
Proof.
  assert (Hcase : forall r,
             (-40 <= r /\ mapRSSIToMotorSpeed r = 0)
             \/ (r <= -75 /\ mapRSSIToMotorSpeed r = 150)
             \/ (-75 < r < -40
                 /\ mapRSSIToMotorSpeed r = ((-40 - r) * 150) / 35)).
  { intros r.
    destruct (Z_le_gt_dec (-40) r) as [H | H].
    - left. split; [exact H |]. unfold mapRSSIToMotorSpeed.
      destruct (r >=? -40) eqn:E; [reflexivity | lia].
    - destruct (Z_le_gt_dec r (-75)) as [H' | H'].
      + right; left. split; [exact H' |].
        unfold mapRSSIToMotorSpeed, RSSI_THRESHOLD.
        destruct (r >=? -40) eqn:E1; [lia |].
        destruct (r <=? -75) eqn:E2; [reflexivity | lia].
      + right; right. split; [lia |].
        apply mapRSSIToMotorSpeed_interior. unfold RSSI_THRESHOLD. lia. }
  assert (Hin : forall r, -75 < r < -40 ->
                         0 <= ((-40 - r) * 150) / 35 <= 150).
  { intros r Hr. split.
    - apply Z.div_pos; lia.
    - change 150 with (5250 / 35) at 2. apply Z.div_le_mono; lia. }
  split.
  - intros r. destruct (Hcase r) as [[_ ->] | [[_ ->] | [Hr ->]]];
      [lia | lia | apply Hin, Hr].
  - intros a b Hab.
    destruct (Hcase a) as [[Ha ->] | [[Ha ->] | [Ha ->]]];
      destruct (Hcase b) as [[Hb ->] | [[Hb ->] | [Hb ->]]];
      try lia;
      try (apply Hin; assumption).
    apply Z.div_le_mono; lia.
Qed.

Lemma mapRSSIToMotorSpeed_range_antitone_witness :
  mapRSSIToMotorSpeed (-41) <= mapRSSIToMotorSpeed (-90).
Proof.
  apply (proj2 mapRSSIToMotorSpeed_range_antitone (-90) (-41)). lia.
Defined.

(** ** The search of the scan results *)

Lemma searchTarget_not_listed (nets : list (string * Z)) :
  ~ In TARGET_SSID (ssids nets) -> searchTarget nets = (false, -100).
Proof.
  induction nets as [| [ssid rssi] rest IH]; intros Hn; [reflexivity |].
  cbn [searchTarget]. destruct (String.eqb_spec ssid TARGET_SSID) as [E | E].
  - exfalso. apply Hn. left. exact E.
  - apply IH. intros Hin. apply Hn. right. exact Hin.
Qed.

Lemma searchTarget_first (pre post : list (string * Z)) (rssi : Z) :
  ~ In TARGET_SSID (ssids pre) ->
  searchTarget (pre ++ (TARGET_SSID, rssi) :: post) = (true, rssi).
Proof.
  induction pre as [| [ssid r] rest IH]; intros Hn.
  - cbn. reflexivity.
  - cbn [app searchTarget].
    destruct (String.eqb_spec ssid TARGET_SSID) as [E | E].
    + exfalso. apply Hn. left. exact E.
    + apply IH. intros Hin. apply Hn. right. exact Hin.
Qed.

Lemma targetFound_listed (nets : list (string * Z)) :
  targetFound nets = true <-> In TARGET_SSID (ssids nets).
Proof.
  unfold targetFound.
  induction nets as [| [ssid rssi] rest IH]; cbn [searchTarget ssids List.map].
  - cbn. split; [discriminate | tauto].
  - destruct (String.eqb_spec ssid TARGET_SSID) as [E | E]; cbn [fst In].
    + split; [intros _; left; exact E | reflexivity].
    + rewrite IH. unfold ssids. tauto.
Qed.

(** X2: the scan search finds the target exactly when a network of that name
    is listed, whatever the order of the list; it reports the strength of the
    first network of that name, later ones being ignored, and -100 when none
    is listed (an empty or failed scan included). *)
Theorem searchTarget_first_match (nets : list (string * Z)) :
  (targetFound nets = true <-> In TARGET_SSID (ssids nets))
  /\ (forall (pre post : list (string * Z)) (rssi : Z),
        nets = pre ++ (TARGET_SSID, rssi) :: post ->
        ~ In TARGET_SSID (ssids pre) ->
        targetFound nets = true /\ targetRSSI nets = rssi)
  /\ (targetFound nets = false -> targetRSSI nets = -100)
  /\ (forall nets' : list (string * Z),
        Permutation nets nets' -> targetFound nets' = targetFound nets).
Proof.
  split; [apply targetFound_listed |].
  split.
  { intros pre post rssi -> Hn. unfold targetFound, targetRSSI.
    rewrite searchTarget_first by exact Hn. split; reflexivity. }
  split.
  { intros Hf. unfold targetRSSI. rewrite searchTarget_not_listed;
      [reflexivity |].
    intros Hin. apply targetFound_listed in Hin. congruence. }
  intros nets' HP.
  assert (Hiff : In TARGET_SSID (ssids nets) <-> In TARGET_SSID (ssids nets')).
  { unfold ssids. split; apply Permutation_in, Permutation_map;
      [exact HP | symmetry; exact HP]. }
  destruct (targetFound nets) eqn:E.
  - apply targetFound_listed, Hiff, targetFound_listed, E.
  - destruct (targetFound nets') eqn:E'; [| reflexivity].
    apply targetFound_listed, Hiff, targetFound_listed in E'. congruence.
Qed.

Lemma searchTarget_first_match_witness :
  targetFound
    [("neighbour"%string, -60); (TARGET_SSID, -70); (TARGET_SSID, -50)] = true
  /\ targetRSSI
       [("neighbour"%string, -60); (TARGET_SSID, -70); (TARGET_SSID, -50)]
     = -70
  /\ targetRSSI [("neighbour"%string, -60)] = -100.
Proof.
  split; [| split].
  - apply (proj1 (proj2 (searchTarget_first_match _))
             [("neighbour"%string, -60)] [(TARGET_SSID, -50)] (-70)).
    + reflexivity.
    + cbn. intros [H | []]. discriminate H.
  - apply (proj1 (proj2 (searchTarget_first_match _))
             [("neighbour"%string, -60)] [(TARGET_SSID, -50)] (-70)).
    + reflexivity.
    + cbn. intros [H | []]. discriminate H.
  - apply (proj1 (proj2 (proj2 (searchTarget_first_match _)))). reflexivity.
Defined.

(** ** A scan that finds the target *)

Lemma mapRSSIToMotorSpeed_safe_zone (rssi : Z) :
  RSSI_THRESHOLD < rssi -> 0 <= mapRSSIToMotorSpeed rssi <= 145.
Proof.
  unfold RSSI_THRESHOLD. intros H.
  destruct (Z_le_gt_dec (-40) rssi) as [Hs | Hs].
  - unfold mapRSSIToMotorSpeed.
    destruct (rssi >=? -40) eqn:E; lia.
  - rewrite mapRSSIToMotorSpeed_interior by (unfold RSSI_THRESHOLD; lia).
    split.
    + apply Z.div_pos; lia.
    + change 145 with (5100 / 35). apply Z.div_le_mono; lia.
Qed.

(** X3: a scan that finds the target above the threshold leaves the collar
    out of both warning modes, whatever it was in before, with the miss
    counter cleared, the sighting time recorded, the normal scan interval
    selected and the motor at the mapped intensity, which is at most 145: the
    value 150 of the mapper is never commanded. *)
Theorem sighting_in_safe_zone (nets : list (string * Z)) (now : Z)
    (s : State) :
  targetFound nets = true -> RSSI_THRESHOLD < targetRSSI nets ->
  let s' := fst (scanAndRespond nets now s) in
  inBoundaryWarning s' = false /\ inFailsafe s' = false
  /\ currentMotorSpeed s' = mapRSSIToMotorSpeed (targetRSSI nets)
  /\ 0 <= currentMotorSpeed s' <= 145
  /\ currentScanInterval s' = NORMAL_SCAN_INTERVAL
  /\ failedScans s' = 0 /\ lastNetworkSeen s' = now.
Proof.
  intros Hf Hr. cbn zeta.
  pose proof (mapRSSIToMotorSpeed_safe_zone _ Hr) as Hm.
  assert (Hc : constrain (mapRSSIToMotorSpeed (targetRSSI nets)) 0 255
               = mapRSSIToMotorSpeed (targetRSSI nets)).
  { unfold constrain.
    destruct (_ <? 0) eqn:E1; [lia |]. destruct (_ >? 255) eqn:E2; lia. }
  rewrite scanAndRespond_found by exact Hf. cbn zeta. cbn [fst].
  unfold respondToSignal.
  replace (targetRSSI nets <=? RSSI_THRESHOLD) with false by lia.
  destruct s as [lst lns bst csi fs ibw ifs bc bz bp cms].
  destruct ifs, ibw; run_proc; rewrite ?Hc; repeat split; lia.
Qed.

Lemma sighting_in_safe_zone_witness :
  currentMotorSpeed
    (fst (scanAndRespond [(TARGET_SSID, -60)] (millis 1600) lost)) = 85
  /\ inFailsafe
       (fst (scanAndRespond [(TARGET_SSID, -60)] (millis 1600) lost)) = false.
Proof.
  destruct (sighting_in_safe_zone [(TARGET_SSID, -60)] (millis 1600) lost)
    as (_ & H2 & H3 & _).
  - reflexivity.
  - reflexivity.
  - split; [rewrite H3; reflexivity | exact H2].
Defined.

(** X4: a scan that finds the target at or below the threshold leaves the
    boundary warning on and failsafe off, with the fast interval.  If the
    warning was already on (and failsafe off) the pattern is not restarted:
    only the miss counter, the sighting time and the interval are written and
    the motor is not touched.  If the warning was off, the pattern starts
    from idle with no buzz counted and the motor off. *)
Theorem sighting_at_boundary (nets : list (string * Z)) (now : Z)
    (s : State) :
  targetFound nets = true -> targetRSSI nets <= RSSI_THRESHOLD ->
  let s' := fst (scanAndRespond nets now s) in
  inBoundaryWarning s' = true /\ inFailsafe s' = false
  /\ currentScanInterval s' = FAST_SCAN_INTERVAL
  /\ failedScans s' = 0 /\ lastNetworkSeen s' = now
  /\ (inBoundaryWarning s = true -> inFailsafe s = false ->
      s' = set_currentScanInterval FAST_SCAN_INTERVAL
             (set_failedScans 0 (set_lastNetworkSeen now s))
      /\ motorWrites (snd (scanAndRespond nets now s)) = [])
  /\ (inBoundaryWarning s = false ->
      idle s' = true /\ buzzCount s' = 0 /\ currentMotorSpeed s' = 0).
Proof.
  intros Hf Hr. cbn zeta.
  rewrite scanAndRespond_found by exact Hf. cbn zeta. cbn [fst snd].
  unfold respondToSignal.
  replace (targetRSSI nets <=? RSSI_THRESHOLD) with true by lia.
  destruct s as [lst lns bst csi fs ibw ifs bc bz bp cms].
  destruct ifs, ibw; run_proc; repeat split; intros;
    first [reflexivity | discriminate].
Qed.

Lemma sighting_at_boundary_witness :
  fst (scanAndRespond [(TARGET_SSID, -80)] (millis 1200) firstBuzz) =
  set_currentScanInterval FAST_SCAN_INTERVAL
    (set_failedScans 0 (set_lastNetworkSeen (millis 1200) firstBuzz))
  /\ buzzing (fst (scanAndRespond [(TARGET_SSID, -80)] (millis 1200) firstBuzz))
     = true.
Proof.
  destruct (sighting_at_boundary [(TARGET_SSID, -80)] (millis 1200) firstBuzz)
    as (_ & _ & _ & _ & _ & H6 & _).
  - reflexivity.
  - vm_compute. discriminate.
  - destruct (H6 eq_refl eq_refl) as [Hs _].
    split; [exact Hs | rewrite Hs; reflexivity].
Defined.

(** ** The motor pin follows the commanded speed *)

Lemma pinAfter_cons (pin w : Z) (a : list Z) :
  pinAfter pin (w :: a) = pinAfter w a.
Proof.
  unfold pinAfter. revert pin w.
  induction a as [| x a IH]; intros pin w; [reflexivity |].
  change (List.last (w :: x :: a) pin) with (List.last (x :: a) pin).
  rewrite (IH pin x), (IH w x). reflexivity.
Qed.

Lemma noRepeat_app (pin : Z) (a b : list Z) :
  noRepeat pin (a ++ b) <-> noRepeat pin a /\ noRepeat (pinAfter pin a) b.
Proof.
  revert pin. induction a as [| w a IH]; intros pin.
  - cbn. tauto.
  - cbn [app noRepeat]. rewrite IH, pinAfter_cons. tauto.
Qed.

Lemma pinAfter_app (pin : Z) (a b : list Z) :
  pinAfter pin (a ++ b) = pinAfter (pinAfter pin a) b.
Proof.
  revert pin. induction a as [| w a IH]; intros pin; [reflexivity |].
  cbn [app]. rewrite !pinAfter_cons. apply IH.
Qed.

Lemma faithful_andThen (p q : Proc) :
  faithful p -> faithful q -> faithful (p ;; q).
Proof.
  intros Hp Hq s. rewrite andThen_eq. cbn [fst snd].
  destruct (Hp s) as (N1 & L1 & R1).
  destruct (Hq (fst (p s))) as (N2 & L2 & R2).
  rewrite motorWrites_app. split; [| split].
  - apply noRepeat_app. rewrite L1. split; assumption.
  - rewrite pinAfter_app, L1. exact L2.
  - apply Forall_app. split; assumption.
Qed.

(** Whatever the procedure is at each state, it is faithful if it is so
    state by state. *)
Lemma faithful_pointwise (p : Proc) :
  (forall s, exists q, faithful q /\ p s = q s) -> faithful p.
Proof.
  intros H s. destruct (H s) as (q & Hq & E). rewrite E. apply Hq.
Qed.

Lemma faithful_when (c : State -> bool) (p : Proc) :
  faithful p -> faithful (when c p).
Proof.
  intros Hp s. unfold when. destruct (c s); [apply Hp |].
  cbn. repeat split. constructor.
Qed.

Lemma faithful_ifElse (c : State -> bool) (p q : Proc) :
  faithful p -> faithful q -> faithful (ifElse c p q).
Proof.
  intros Hp Hq s. unfold ifElse. destruct (c s); [apply Hp | apply Hq].
Qed.

Lemma faithful_skip : faithful skip.
Proof. intros s. cbn. repeat split. constructor. Qed.

Lemma faithful_assign (f : State -> State) :
  (forall s, currentMotorSpeed (f s) = currentMotorSpeed s) ->
  faithful (assign f).
Proof.
  intros Hf s. cbn. rewrite Hf. repeat split. constructor.
Qed.

Lemma faithful_emit (e : Event) :
  motorWrites [e] = [] -> faithful (emit e).
Proof.
  intros He s. unfold emit. cbn [fst snd]. rewrite He.
  cbn. repeat split. constructor.
Qed.

Lemma faithful_println_of (line : State -> string) :
  faithful (fun s => println (line s) s).
Proof.
  apply faithful_pointwise. intros s. exists (println (line s)).
  split; [apply faithful_emit; reflexivity | reflexivity].
Qed.

Lemma faithful_setMotorSpeed (v : Z) : faithful (setMotorSpeed v).
Proof.
  intros s. rewrite setMotorSpeed_eq. cbn [fst snd].
  rewrite motorWrites_motorEvents.
  pose proof (constrain_bounds v 0 255 ltac:(lia)) as Hb.
  destruct (Z.eqb_spec (constrain v 0 255) (currentMotorSpeed s)) as [E | E].
  - cbn. rewrite E. repeat split. constructor.
  - cbn. repeat split; [exact E |].
    constructor; [exact Hb | constructor].
Qed.

Ltac faithful_step :=
  first
    [ apply faithful_setMotorSpeed
    | apply faithful_andThen
    | apply faithful_when
    | apply faithful_ifElse
    | apply faithful_skip
    | apply faithful_println_of
    | apply faithful_emit; reflexivity
    | apply faithful_assign; intros []; reflexivity ].

Lemma faithful_exitBoundaryWarning : faithful exitBoundaryWarning.
Proof.
  unfold exitBoundaryWarning, println, digitalWrite. repeat faithful_step.
Qed.

Lemma faithful_enterBoundaryWarning : faithful enterBoundaryWarning.
Proof.
  unfold enterBoundaryWarning, println, digitalWrite. repeat faithful_step.
Qed.

Lemma faithful_handleBoundaryWarning (t : Z) :
  faithful (handleBoundaryWarning t).
Proof.
  unfold handleBoundaryWarning, println, digitalWrite.
  repeat faithful_step.
Qed.

Lemma faithful_warningPulses (n : nat) : faithful (warningPulses n).
Proof.
  induction n as [| n IH]; cbn [warningPulses]; unfold digitalWrite, delay;
    repeat faithful_step.
  exact IH.
Qed.

Lemma faithful_enterFailsafeMode : faithful enterFailsafeMode.
Proof.
  unfold enterFailsafeMode, println, digitalWrite.
  repeat first [apply faithful_exitBoundaryWarning
               | apply faithful_warningPulses | faithful_step].
Qed.

Lemma faithful_exitFailsafeMode : faithful exitFailsafeMode.
Proof.
  unfold exitFailsafeMode, println, digitalWrite. repeat faithful_step.
Qed.

Lemma faithful_scanAndRespond (nets : list (string * Z)) (now : Z) :
  faithful (scanAndRespond nets now).
Proof.
  unfold scanAndRespond, respondToSignal, respondToMiss, println.
  destruct (targetFound nets);
    [destruct (targetRSSI nets <=? RSSI_THRESHOLD) |];
    repeat first [apply faithful_exitBoundaryWarning
                 | apply faithful_enterBoundaryWarning
                 | apply faithful_enterFailsafeMode
                 | apply faithful_exitFailsafeMode
                 | faithful_step].
Qed.

Lemma faithful_loop (i : LoopInput) : faithful (loop i).
Proof.
  unfold loop, scanPhase, patternPhase, delay.
  repeat first [apply faithful_scanAndRespond
               | apply faithful_handleBoundaryWarning | faithful_step].
Qed.

Lemma faithful_runLoop (inputs : list LoopInput) : faithful (runLoop inputs).
Proof.
  induction inputs as [| i rest IH]; cbn [runLoop].
  - apply faithful_skip.
  - apply faithful_andThen; [apply faithful_loop | exact IH].
Qed.

(** X5: [setup] writes 0 to the motor pin and records speed 0; from then on,
    over any number of iterations of the loop and whatever the clock and
    the scans do, every value written to the pin is between 0 and 255, no
    write repeats the value the pin already has, and after the run the pin
    holds [currentMotorSpeed]. *)
Theorem motor_pin_follows_currentMotorSpeed :
  (forall now : Z,
      motorWrites (snd (setup now boot)) = [0]
      /\ currentMotorSpeed (fst (setup now boot)) = 0)
  /\ (forall (inputs : list LoopInput) (s : State),
        let writes := motorWrites (snd (runLoop inputs s)) in
        noRepeat (currentMotorSpeed s) writes
        /\ pinAfter (currentMotorSpeed s) writes
           = currentMotorSpeed (fst (runLoop inputs s))
        /\ Forall (fun w => 0 <= w <= 255) writes).
Proof.
  split.
  - intros now. split; reflexivity.
  - intros inputs s. apply faithful_runLoop.
Qed.

(** ** Where the sketch blocks *)

Lemma delays_app (a b : list Event) :
  delays (a ++ b) = delays a ++ delays b.
Proof.
  induction a as [| e a IH]; [reflexivity |].
  destruct e; cbn; rewrite ?IH; reflexivity.
Qed.

Lemma delays_motorEvents (v : Z) (s : State) : delays (motorEvents v s) = [].
Proof.
  unfold motorEvents.
  destruct (constrain v 0 255 =? currentMotorSpeed s); reflexivity.
Qed.

Lemma quick_andThen (p q : Proc) : quick p -> quick q -> quick (p ;; q).
Proof.
  intros Hp Hq s. rewrite snd_andThen, delays_app, Hp, Hq. reflexivity.
Qed.

Lemma quick_when (c : State -> bool) (p : Proc) : quick p -> quick (when c p).
Proof. intros Hp s. unfold when. destruct (c s); [apply Hp | reflexivity]. Qed.

Lemma quick_ifElse (c : State -> bool) (p q : Proc) :
  quick p -> quick q -> quick (ifElse c p q).
Proof.
  intros Hp Hq s. unfold ifElse. destruct (c s); [apply Hp | apply Hq].
Qed.

Lemma quick_assign (f : State -> State) : quick (assign f).
Proof. intros s. reflexivity. Qed.

Lemma quick_emit (e : Event) : delays [e] = [] -> quick (emit e).
Proof. intros He s. exact He. Qed.

Lemma quick_println_of (line : State -> string) :
  quick (fun s => println (line s) s).
Proof. intros s. reflexivity. Qed.

Lemma quick_setMotorSpeed (v : Z) : quick (setMotorSpeed v).
Proof. intros s. rewrite setMotorSpeed_eq. apply delays_motorEvents. Qed.

Ltac quick_step :=
  first
    [ apply quick_setMotorSpeed
    | apply quick_andThen
    | apply quick_when
    | apply quick_ifElse
    | apply quick_assign
    | apply quick_println_of
    | apply quick_emit; reflexivity ].

Lemma quick_handleBoundaryWarning (t : Z) : quick (handleBoundaryWarning t).
Proof.
  unfold handleBoundaryWarning, println, digitalWrite. repeat quick_step.
Qed.





(** ** The shape of the reachable states *)

Ltac close_shape :=
  constructor; cbn in *; intros;
  repeat match goal with
         | H : ?a = ?a -> _ |- _ => specialize (H eq_refl)
         | H : _ /\ _ |- _ => destruct H
         end;
  first [ discriminate | assumption | reflexivity
        | left; reflexivity | right; reflexivity
        | split; reflexivity | tauto | split; congruence | congruence
        | idtac ].

Lemma Shape_setup (now : Z) : Shape (fst (setup now boot)).
Proof. close_shape. Qed.

Lemma Shape_scanAndRespond (nets : list (string * Z)) (now : Z) (s : State) :
  Shape s -> Shape (fst (scanAndRespond nets now s)).
Proof.
  destruct s as [lst lns bst csi fs ibw ifs bc bz bp cms].
  intros [H1 H2 H3]. cbn in H1, H2, H3.
  unfold scanAndRespond.
  destruct (targetFound nets); [unfold respondToSignal;
    destruct (targetRSSI nets <=? RSSI_THRESHOLD) |];
    destruct ifs, ibw; run_proc; close_shape.
Qed.

Lemma Shape_handleBoundaryWarning (t : Z) (s : State) :
  Shape s -> inBoundaryWarning s = true ->
  Shape (fst (handleBoundaryWarning t s)).
Proof.
  destruct s as [lst lns bst csi fs ibw ifs bc bz bp cms]. cbn.
  intros [H1 H2 H3] ->. cbn in H1, H2, H3.
  destruct bz, bp; run_proc; close_shape.
Qed.

Lemma Shape_loop (i : LoopInput) : preserves Shape (loop i).
Proof.
  unfold loop. apply preserves_andThen; [| apply preserves_andThen].
  - apply preserves_when. intros s HS _. rewrite fst_andThen.
    apply (Shape_scanAndRespond (networks i) (scanTime i)) in HS.
    destruct HS as [? ? ?].
    destruct (fst (scanAndRespond (networks i) (scanTime i) s)).
    constructor; assumption.
  - apply preserves_when. intros s HS Hc.
    apply Shape_handleBoundaryWarning; [exact HS |].
    destruct (inBoundaryWarning s); [reflexivity | discriminate].
  - intros s HS. exact HS.
Qed.

Lemma Reachable_Shape (s : State) : Reachable s -> Shape s.
Proof.
  induction 1 as [now | i s _ IH].
  - apply Shape_setup.
  - apply Shape_loop, IH.
Qed.

(** X9: between any two iterations of the loop the scan interval is the
    normal or the fast one, and it is the fast one whenever the boundary
    warning is on; the flags [buzzing] and [buzzPause] are never both set,
    and both are clear whenever the boundary warning is off. *)
Theorem reachable_state_shape (s : State) :
  Reachable s ->
  (currentScanInterval s = NORMAL_SCAN_INTERVAL
   \/ currentScanInterval s = FAST_SCAN_INTERVAL)
  /\ (inBoundaryWarning s = true ->
      currentScanInterval s = FAST_SCAN_INTERVAL)
  /\ buzzing s && buzzPause s = false
  /\ (inBoundaryWarning s = false -> idle s = true).
Proof.
  intros HR. destruct (Reachable_Shape s HR) as [H1 H2 H3].
  destruct (Reachable_Inv s HR) as [_ Hph _ _].
  split; [exact H1 |]. split; [exact H2 |]. split.
  - destruct (buzzing s); [| reflexivity]. rewrite Hph; reflexivity.
  - intros Hw. destruct (H3 Hw) as [Hb Hp]. unfold idle.
    rewrite Hb, Hp. reflexivity.
Qed.

Lemma reachable_state_shape_witness :
  currentScanInterval firstBuzz = FAST_SCAN_INTERVAL
  /\ buzzing firstBuzz && buzzPause firstBuzz = false
  /\ idle lost = true.
Proof.
  assert (HR : Reachable firstBuzz)
    by (apply Reachable_runLoop, Reachable_started).
  destruct (reachable_state_shape firstBuzz HR) as (_ & H2 & H3 & _).
  destruct (reachable_state_shape lost Reachable_lost) as (_ & _ & _ & H4).
  split; [apply H2; reflexivity |]. split; [exact H3 |].
  apply H4. reflexivity.
Defined.

(** ** When a scan is due *)



(** ** The two ways into failsafe *)

(** X8: the silence that triggers failsafe is measured in elapsed time, also
    across the wrap-around of the millisecond counter: with the last
    sighting at time [t], failsafe inactive and fewer than two misses
    counted, a scan at time [t + d] (with [d] below 2^32) that misses the
    target enters failsafe if and only if [d] exceeds 30000 ms. *)
Theorem failsafe_timeout_elapsed (nets : list (string * Z)) (s : State)
    (t d : Z) :
  targetFound nets = false -> inFailsafe s = false ->
  0 <= failedScans s < 2 ->
  lastNetworkSeen s = millis t -> 0 <= d < 4294967296 ->
  inFailsafe (fst (scanAndRespond nets (millis (t + d)) s)) = true
  <-> FAILSAFE_TIMEOUT < d.
Proof.
  intros Hmiss HF Hc Hl Hd.
  rewrite scanAndRespond_miss by exact Hmiss. cbn zeta.
  set (s1 := set_failedScans (wrap_int (failedScans s + 1)) s).
  assert (HC : failsafeCondition (millis (t + d)) s1 = true
               <-> FAILSAFE_TIMEOUT < d).
  { rewrite failsafeCondition_spec. subst s1.
    cbn [failedScans lastNetworkSeen set_failedScans].
    rewrite Hl, usub_millis, wrap_int_small by lia.
    unfold MAX_SCAN_ATTEMPTS. lia. }
  destruct (failsafeCondition (millis (t + d)) s1).
  - rewrite enterFailsafeMode_inactive by exact HF. cbn.
    split; [intros _; apply HC; reflexivity | reflexivity].
  - cbn. rewrite HF. split; [discriminate |].
    intros Hgt. apply (proj2 HC) in Hgt. discriminate Hgt.
Qed.

Lemma failsafe_timeout_elapsed_witness :
  inFailsafe
    (fst (scanAndRespond [] (millis (4294967000 + 30001))
            (set_lastNetworkSeen (millis 4294967000) started))) = true.
Proof.
  apply (failsafe_timeout_elapsed []
           (set_lastNetworkSeen (millis 4294967000) started)
           4294967000 30001).
  - reflexivity.
  - reflexivity.
  - cbn. lia.
  - reflexivity.
  - lia.
  - unfold FAILSAFE_TIMEOUT. lia.
Defined.

Lemma miss_state (nets : list (string * Z)) (now : Z) (s : State) :
  targetFound nets = false ->
  let s' := fst (scanAndRespond nets now s) in
  failedScans s' = wrap_int (failedScans s + 1)
  /\ lastNetworkSeen s' = lastNetworkSeen s
  /\ inFailsafe s' =
       inFailsafe s
       || failsafeCondition now
            (set_failedScans (wrap_int (failedScans s + 1)) s)
  /\ (inFailsafe s' = true \/ currentMotorSpeed s' = 255)
  /\ countLine FAILSAFE_ENTERED (snd (scanAndRespond nets now s)) =
       (if negb (inFailsafe s) && inFailsafe s' then 1 else 0)%nat.
Proof.
  intros Hmiss. cbn zeta.
  rewrite scanAndRespond_miss by exact Hmiss. cbn zeta.
  destruct (failsafeCondition _ _) eqn:C; cbn [fst snd].
  - destruct (inFailsafe s) eqn:F.
    + rewrite enterFailsafeMode_active by exact F. cbn.
      rewrite F. repeat split. left. reflexivity.
    + rewrite enterFailsafeMode_inactive by exact F. cbn [fst snd].
      repeat split; [left; reflexivity | count_lines].
  - rewrite orb_false_r. cbn.
    repeat split; [right; reflexivity |].
    count_lines. destruct (inFailsafe s); reflexivity.
Qed.

(** X10: after a sighting ([failedScans] at 0, failsafe off), the third scan
    in a row that misses the target has failsafe on, whatever the clock
    reads; over the three scans the entry sequence is announced exactly
    once.  While the silence stays within the timeout the first two misses
    leave failsafe off, with two misses counted. *)
Theorem third_miss_enters_failsafe (n1 n2 n3 : list (string * Z))
    (t1 t2 t3 : Z) (s : State) :
  targetFound n1 = false -> targetFound n2 = false ->
  targetFound n3 = false ->
  failedScans s = 0 -> inFailsafe s = false ->
  let r1 := scanAndRespond n1 t1 s in
  let r2 := scanAndRespond n2 t2 (fst r1) in
  let r3 := scanAndRespond n3 t3 (fst r2) in
  inFailsafe (fst r3) = true
  /\ countLine FAILSAFE_ENTERED (snd r1 ++ snd r2 ++ snd r3) = 1%nat
  /\ (usub t1 (lastNetworkSeen s) <= FAILSAFE_TIMEOUT ->
      usub t2 (lastNetworkSeen s) <= FAILSAFE_TIMEOUT ->
      inFailsafe (fst r2) = false /\ failedScans (fst r2) = 2).
Proof.
  intros H1 H2 H3 Hc HF. cbn zeta.
  set (s1 := fst (scanAndRespond n1 t1 s)).
  set (s2 := fst (scanAndRespond n2 t2 s1)).
  set (s3 := fst (scanAndRespond n3 t3 s2)).
  destruct (miss_state n1 t1 s H1) as (C1 & L1 & F1 & _ & N1).
  destruct (miss_state n2 t2 s1 H2) as (C2 & L2 & F2 & _ & N2).
  destruct (miss_state n3 t3 s2 H3) as (C3 & L3 & F3 & _ & N3).
  cbn zeta in C1, L1, F1, N1, C2, L2, F2, N2, C3, L3, F3, N3.
  fold s1 in C1, L1, F1, N1. fold s2 in C2, L2, F2, N2.
  fold s3 in C3, L3, F3, N3.
  rewrite Hc in C1, F1. change (wrap_int (0 + 1)) with 1 in C1, F1.
  rewrite C1 in C2, F2. change (wrap_int (1 + 1)) with 2 in C2, F2.
  rewrite C2 in C3, F3. change (wrap_int (2 + 1)) with 3 in C3, F3.
  assert (E3 : inFailsafe s3 = true).
  { rewrite F3. apply orb_true_iff. right.
    apply failsafeCondition_spec. right. cbn.
    unfold MAX_SCAN_ATTEMPTS. lia. }
  split; [exact E3 |]. split.
  - rewrite !countLine_app, N1, N2, N3, HF, E3.
    destruct (inFailsafe s1), (inFailsafe s2); cbn [orb] in F2;
      first [discriminate F2 | reflexivity].
  - intros T1 T2.
    assert (E1 : inFailsafe s1 = false).
    { rewrite F1, HF. cbn [orb].
      destruct (failsafeCondition t1 (set_failedScans 1 s)) eqn:C;
        [| reflexivity].
      apply failsafeCondition_spec in C. cbn in C.
      unfold MAX_SCAN_ATTEMPTS in C. lia. }
    split; [| exact C2].
    rewrite F2, E1. cbn [orb].
    destruct (failsafeCondition t2 (set_failedScans 2 s1)) eqn:C;
      [| reflexivity].
    apply failsafeCondition_spec in C. cbn in C. rewrite L1 in C.
    unfold MAX_SCAN_ATTEMPTS in C. lia.
Qed.

Lemma third_miss_enters_failsafe_witness :
  inFailsafe
    (fst (scanAndRespond [] 1400
            (fst (scanAndRespond [] 1200
                    (fst (scanAndRespond [] 1000 started)))))) = true.
Proof.
  apply (third_miss_enters_failsafe [] [] [] 1000 1200 1400 started);
    reflexivity.
Defined.

(** ** What a tick of the pattern leaves alone *)

Lemma motorWrites_motorEvents_length (v : Z) (s : State) :
  (List.length (motorWrites (motorEvents v s)) <= 1)%nat.
Proof.
  rewrite motorWrites_motorEvents.
  destruct (constrain v 0 255 =? currentMotorSpeed s); cbn; lia.
Qed.

(** X11: a tick of the boundary pattern writes the motor at most once, never
    waits, and touches only the pattern's own globals and the commanded
    speed: the scan timer, the sighting time, the scan interval, the miss
    counter and both mode flags are as before. *)
Theorem handleBoundaryWarning_footprint (t : Z) (s : State) :
  let s' := fst (handleBoundaryWarning t s) in
  lastScanTime s' = lastScanTime s
  /\ lastNetworkSeen s' = lastNetworkSeen s
  /\ currentScanInterval s' = currentScanInterval s
  /\ failedScans s' = failedScans s
  /\ inBoundaryWarning s' = inBoundaryWarning s
  /\ inFailsafe s' = inFailsafe s
  /\ (List.length (motorWrites (snd (handleBoundaryWarning t s))) <= 1)%nat
  /\ delays (snd (handleBoundaryWarning t s)) = [].
Proof.
  cbn zeta.
  assert (Hq : delays (snd (handleBoundaryWarning t s)) = [])
    by apply quick_handleBoundaryWarning.
  destruct s as [lst lns bst csi fs ibw ifs bc bz bp cms].
  destruct bz, bp; revert Hq; run_proc; intros Hq; known_consts;
    try lia; repeat split; try exact Hq;
    rewrite ?app_nil_r, ?motorWrites_app; cbn [motorWrites app];
    rewrite ?app_nil_r;
    first [apply motorWrites_motorEvents_length | cbn; lia].
Qed.

(** ** Reaching the boundary *)

(** X12: the iteration of the loop whose scan first finds the target at or
    below the threshold also starts the first buzz: it ends with the boundary
    warning on, a buzz running since the clock reading of its pattern tick,
    no buzz counted yet, and the motor at 200. *)
Theorem boundary_reached_starts_buzz (i : LoopInput) (s : State) :
  inBoundaryWarning s = false -> scanDue i s = true ->
  targetFound (networks i) = true ->
  targetRSSI (networks i) <= RSSI_THRESHOLD ->
  let s' := fst (loop i s) in
  inBoundaryWarning s' = true /\ inFailsafe s' = false
  /\ buzzing s' = true /\ buzzPause s' = false /\ buzzCount s' = 0
  /\ buzzStartTime s' = tickTime i
  /\ currentMotorSpeed s' = 200
  /\ pinAfter (currentMotorSpeed s) (motorWrites (snd (loop i s))) = 200.
Proof.
  intros Hw Hdue Hf Hr. cbn zeta.
  assert (Hscan :
            fst (scanPhase i s) =
            mkState (loopTime i) (scanTime i) (buzzStartTime s)
              FAST_SCAN_INTERVAL 0 true false 0 false false 0).
  { unfold scanPhase. rewrite when_true by exact Hdue.
    rewrite fst_andThen, scanAndRespond_found by exact Hf.
    cbn zeta. cbn [fst]. unfold respondToSignal.
    replace (targetRSSI (networks i) <=? RSSI_THRESHOLD) with true by lia.
    destruct s as [lst lns bst csi fs ibw ifs bc bz bp cms].
    cbn in Hw. subst ibw.
    destruct ifs; run_proc; reflexivity. }
  destruct (faithful_loop i s) as (_ & Hpin & _). rewrite Hpin. clear Hpin.
  unfold loop. rewrite !fst_andThen. cbn [delay emit fst].
  rewrite Hscan. unfold patternPhase.
  rewrite when_true by reflexivity.
  rewrite tick_idle by reflexivity. cbn [fst].
  repeat split.
Qed.

Lemma boundary_reached_starts_buzz_witness :
  buzzing (fst (loop (sighting 1000 (-80)) started)) = true
  /\ currentMotorSpeed (fst (loop (sighting 1000 (-80)) started)) = 200.
Proof.
  destruct (boundary_reached_starts_buzz (sighting 1000 (-80)) started)
    as (_ & _ & Hb & _ & _ & _ & Hm & _).
  - reflexivity.
  - reflexivity.
  - reflexivity.
  - vm_compute. discriminate.
  - split; assumption.
Defined.

(** ** The pattern repeats *)

Lemma runTicks_inBoundaryWarning (ticks : list Z) (s : State) :
  inBoundaryWarning (fst (runTicks ticks s)) = inBoundaryWarning s.
Proof.
  revert s. induction ticks as [| t rest IH]; intros s; [reflexivity |].
  rewrite runTicks_cons. cbn [fst]. rewrite IH.
  apply handleBoundaryWarning_frame.
Qed.

Lemma faithful_runTicks (ticks : list Z) : faithful (runTicks ticks).
Proof.
  induction ticks as [| t rest IH]; cbn [runTicks].
  - apply faithful_skip.
  - apply faithful_andThen; [apply faithful_handleBoundaryWarning | exact IH].
Qed.

Lemma freshlyEntered_enter (s : State) :
  freshlyEntered s -> fst (enterBoundaryWarning s) = s.
Proof.
  intros (Hw & Hb & Hp & Hc & Hm). rewrite enterBoundaryWarning_state.
  destruct s. cbn in *. subst. reflexivity.
Qed.

(** One full cycle from a freshly entered pattern ends freshly entered. *)
Lemma cycle_from_fresh (c : Schedule) (s : State) :
  wellTimed c -> freshlyEntered s ->
  let r := runTicks (List.map millis (ticksBeforeFinish c ++ [finish c])) s in
  freshlyEntered (fst r) /\ cycleDone r.
Proof.
  intros WT HF. cbn zeta.
  assert (HD : cycleDone
                 (runTicks
                    (List.map millis (ticksBeforeFinish c ++ [finish c])) s)).
  { destruct (cycle_before_finish c s WT) as (_ & _ & _ & HD).
    cbn zeta in HD. rewrite (freshlyEntered_enter s HF) in HD.
    rewrite map_app, runTicks_app. cbn [List.map].
    rewrite (runTicks_cons (millis (finish c)) []).
    cbn [runTicks skip fst snd]. rewrite app_nil_r. exact HD. }
  split; [| exact HD].
  destruct HD as (Hi & Hc & Hm & _).
  destruct HF as (Hw & _ & _ & _ & Hs).
  destruct (faithful_runTicks
              (List.map millis (ticksBeforeFinish c ++ [finish c])) s)
    as (_ & Hpin & _).
  rewrite Hm in Hpin. cbn in Hpin.
  unfold idle in Hi. apply andb_true_iff in Hi. destruct Hi as [Hb Hp].
  apply negb_true_iff in Hb, Hp.
  repeat split; try assumption.
  - rewrite runTicks_inBoundaryWarning. exact Hw.
  - symmetry. exact Hpin.
Qed.

(** X13: while the pattern stays entered it repeats: ticked through any
    number of well-timed schedules one after the other, it makes three
    buzzes and prints one pattern-complete line per schedule, and ends
    entered, idle, with no buzz counted and the motor off, as it started. *)
Theorem boundary_pattern_repeats (cs : list Schedule) (s : State) :
  Forall wellTimed cs ->
  let r := runTicks (List.map millis (cyclesTicks cs))
             (fst (enterBoundaryWarning s)) in
  freshlyEntered (fst r)
  /\ motorWrites (snd r)
     = List.concat (List.repeat [200; 0; 200; 0; 200; 0] (List.length cs))
  /\ countLine PATTERN_COMPLETE (snd r) = List.length cs.
Proof.
  intros HA. cbn zeta.
  assert (H0 : freshlyEntered (fst (enterBoundaryWarning s))).
  { rewrite enterBoundaryWarning_state. repeat split. }
  revert H0. generalize (fst (enterBoundaryWarning s)). clear s.
  induction HA as [| c cs WT _ IH]; intros s HF.
  - cbn. repeat split; apply HF.
  - cbn [cyclesTicks flat_map]. fold (cyclesTicks cs).
    rewrite map_app, runTicks_app. cbn [fst snd].
    destruct (cycle_from_fresh c s WT HF) as (HF1 & _ & _ & Hm & Hl).
    cbn zeta in HF1, Hm, Hl.
    destruct (IH _ HF1) as (HF2 & Hm2 & Hl2).
    split; [exact HF2 |].
    rewrite motorWrites_app, countLine_app, Hm, Hm2, Hl, Hl2.
    split; reflexivity.
Qed.

Lemma boundary_pattern_repeats_witness :
  motorWrites
    (snd (runTicks
            (List.map millis (cyclesTicks [sampleSchedule; sampleSchedule]))
            (fst (enterBoundaryWarning started))))
  = [200; 0; 200; 0; 200; 0; 200; 0; 200; 0; 200; 0].
Proof.
  assert (WT : wellTimed sampleSchedule)
    by (constructor; cbn; unfold within; repeat constructor;
        vm_compute; discriminate).
  destruct (boundary_pattern_repeats [sampleSchedule; sampleSchedule] started)
    as (_ & Hm & _).
  - constructor; [exact WT |]. constructor; [exact WT | constructor].
  - exact Hm.
Defined.

(** ** The LED *)

(** X14: the built-in LED does not always follow the motor.  When a scan
    finds the target at -40 or stronger while the boundary warning is on
    (failsafe off) and the motor is running, the motor is stopped and the
    last write to the LED is HIGH: the LED stays lit with the motor off. *)
Theorem led_left_on_with_motor_off (nets : list (string * Z)) (now : Z)
    (s : State) (led : bool) :
  targetFound nets = true -> -40 <= targetRSSI nets ->
  inBoundaryWarning s = true -> inFailsafe s = false ->
  currentMotorSpeed s <> 0 ->
  currentMotorSpeed (fst (scanAndRespond nets now s)) = 0
  /\ motorWrites (snd (scanAndRespond nets now s)) = [0]
  /\ ledAfter led (snd (scanAndRespond nets now s)) = HIGH.
Proof.
  intros Hf Hr Hw HF Hm.
  rewrite scanAndRespond_found by exact Hf. cbn zeta. cbn [fst snd].
  unfold respondToSignal, RSSI_THRESHOLD.
  replace (targetRSSI nets <=? -75) with false by lia.
  assert (Hmap : mapRSSIToMotorSpeed (targetRSSI nets) = 0).
  { unfold mapRSSIToMotorSpeed.
    destruct (targetRSSI nets >=? -40) eqn:E; [reflexivity | lia]. }
  rewrite Hmap.
  destruct s as [lst lns bst csi fs ibw ifs bc bz bp cms].
  cbn in Hw, HF, Hm. subst ibw ifs.
  unfold_procs. cbn. rewrite !setMotorSpeed_eq. cbn.
  unfold motorEvents. cbn.
  replace (0 =? cms) with false by lia. cbn.
  repeat split.
Qed.

Lemma led_left_on_with_motor_off_witness :
  ledAfter LOW
    (snd (scanAndRespond [(TARGET_SSID, -30)] (millis 1200) firstBuzz))
  = HIGH
  /\ currentMotorSpeed
       (fst (scanAndRespond [(TARGET_SSID, -30)] (millis 1200) firstBuzz))
     = 0.
Proof.
  destruct (led_left_on_with_motor_off [(TARGET_SSID, -30)] (millis 1200)
              firstBuzz LOW) as (H1 & _ & H3).
  - reflexivity.
  - vm_compute. discriminate.
  - reflexivity.
  - reflexivity.
  - vm_compute. discriminate.
  - split; assumption.
Defined.

(** ** Misses while in failsafe *)



(** ** The cycle and the resolution of the clock *)

Lemma boundary_cycle_needs_more_than_CYCLE_witness :
  ~ cycleDone
      (runTicks
         (List.map millis [1000; 1300; 1400; 1401; 1701; 1801; 1802; 2102;
                           4100])
         (fst (enterBoundaryWarning started))).
Proof.
  apply (boundary_cycle_needs_more_than_CYCLE 1000).
  vm_compute. repeat split; discriminate.
Defined.
